(** * The fine-tuning driver [main.py]: command line, pipeline and clean-up

    [main.py] is a driver script: it parses one command-line flag, logs in
    to the model hub, loads a model and a dataset chosen by the flag, builds
    a trainer, trains, and releases memory.  All the work is done by helper
    modules ([user_login], [trainer.load_model], [data_processing.load_data],
    [trainer.train], [logger]) and by libraries; the script decides only
    WHICH helper is called, WITH WHAT arguments and IN WHAT order.

    The embedding therefore keeps the script's own control flow and
    constants verbatim and treats every helper as a call answered by a
    [World]: the answer is either a value or a raised exception and may
    depend on everything that happened before.  Each call is recorded, with
    its arguments and with whether it returned or raised, in the process
    [history]; the properties below are statements about that record, for
    every world. *)

From Stdlib Require Import String Ascii List ZArith Bool Lia.
Import ListNotations.
Local Open Scope string_scope.
Local Open Scope list_scope.

(** ** [os.path.join] (POSIX flavour) *)

Module PosixPath.

Definition sep : string := "/".

Fixpoint endswith_sep (p : string) : bool :=
  match p with
  | EmptyString => false
  | String c EmptyString => Ascii.eqb c "/"
  | String _ rest => endswith_sep rest
  end.

(** One round of the loop of [posixpath.join]: an absolute component
    restarts the path, a component after an empty path or after a
    trailing separator is appended as is, any other one after a
    separator. *)
Definition join2 (path b : string) : string :=
  if String.prefix sep b then b
  else if (path =? "") || endswith_sep path then path ++ b
  else path ++ sep ++ b.

Definition join (a : string) (p : list string) : string :=
  fold_left join2 p a.

End PosixPath.

(** ** The command line: [argparse] with the single option [--model]

    [parse_args] belongs to the standard library; it is written out here,
    as CPython 3.11 behaves, for the parser the script builds: the option
    [--model] with two choices and no default, and the help option
    [ArgumentParser] adds. *)

Module Argparse.

(** What the attribute [model] of the namespace can hold: [None] when the
    option was not given, the string that was given, or the empty list
    [[]] that [parse_args] stores for [--model=--] (see [parse_known]). *)
Inductive pyvalue : Type :=
| PyNone
| PyStr (s : string)
| PyEmptyList.

(** The namespace [parse_args] returns: one attribute, [model]. *)
Record Namespace : Type := { model : pyvalue }.

(** [choices=["base", "unsloth"]] (line 93). *)
Definition choices : list string := ["base"; "unsloth"].

Definition in_choices (v : string) : bool :=
  existsb (String.eqb v) choices.

(** [parse_args] either returns a namespace or leaves through
    [SystemExit]: status 0 after printing the help, status 2 after an
    error message. *)
Inductive parse_result : Type :=
| Parsed (args : Namespace)
| Exit (status : Z).

(** [--name=value] is cut at the first [=]. *)
Fixpoint split_explicit (s : string) : string * option string :=
  match s with
  | EmptyString => (EmptyString, None)
  | String c rest =>
      if Ascii.eqb c "=" then (EmptyString, Some rest)
      else let (name, explicit) := split_explicit rest in
           (String c name, explicit)
  end.

Fixpoint all_h (s : string) : bool :=
  match s with
  | EmptyString => true
  | String c rest => Ascii.eqb c "h" && all_h rest
  end.

Fixpoint drop (n : nat) (s : string) : string :=
  match n, s with
  | S n', String _ rest => drop n' rest
  | _, _ => s
  end.

(** What one command-line word means to a parser whose option strings
    are [-h], [--help] (added by [ArgumentParser] itself) and [--model].
    Long options may be abbreviated to any unambiguous prefix.  What
    follows [-h] in the same word, after an equals sign directly behind
    it if there is one, is read as more one-letter flags, and [h] is the
    only one there is. *)
Inductive token : Type :=
| Separator                 (* the word [--] *)
| Help                      (* [-h], [--help] or an abbreviation *)
| Ambiguous                 (* [--=v]: a prefix of both long options *)
| Misuse                    (* something else than [h] given to the help flag *)
| ModelFlag                 (* [--model]: the value is the next word *)
| ModelValue (v : string)   (* [--model=v] *)
| Unrecognized.             (* anything else: reported after the scan *)

Definition classify (t : string) : token :=
  if t =? "--" then Separator
  else if String.prefix "--" t then
    let (name, explicit) := split_explicit t in
    if name =? "--" then Ambiguous
    else if String.prefix name "--help" then
      match explicit with None => Help | Some _ => Misuse end
    else if String.prefix name "--model" then
      match explicit with None => ModelFlag | Some v => ModelValue v end
    else Unrecognized
  else if String.prefix "-h" t then
    if t =? "-h" then Help
    else
      let cluster := if String.prefix "-h=" t then drop 3 t else drop 2 t in
      if negb (cluster =? "") && all_h cluster then Help else Misuse
  else Unrecognized.

(** Before anything is acted upon, every word up to the separator [--]
    is looked up among the option strings; an ambiguous abbreviation is
    an error already there. *)
Fixpoint ambiguous_word (argv : list string) : bool :=
  match argv with
  | [] => false
  | t :: rest =>
      match classify t with
      | Separator => false
      | Ambiguous => true
      | _ => ambiguous_word rest
      end
  end.

(** What [--model=v] stores, if anything: a value that is the word [--]
    is struck out before the check against [choices], which leaves the
    empty list, stored unchecked; any other value must be one of
    [choices]. *)
Definition stored (v : string) : option pyvalue :=
  if v =? "--" then Some PyEmptyList
  else if in_choices v then Some (PyStr v)
  else None.

(** The scan, left to right.  The help flag and every error about an
    option leave at once; unrecognized words are only remembered
    ([extras]) and reported when the scan is over.  A value given in the
    next word is accepted only when it is one of [choices]; a value given
    behind an equals sign is accepted when [stored] says so; a later
    [--model] overrides an earlier one. *)
Fixpoint parse_known (argv : list string) (ns : Namespace) (extras : bool)
  : parse_result :=
  match argv with
  | [] => if extras then Exit 2 else Parsed ns
  | t :: rest =>
      match classify t with
      | Separator => Exit 2
      | Help => Exit 0
      | Ambiguous => Exit 2
      | Misuse => Exit 2
      | ModelValue v =>
          match stored v with
          | Some x => parse_known rest {| model := x |} extras
          | None => Exit 2
          end
      | ModelFlag =>
          match rest with
          | [] => Exit 2
          | v :: rest' =>
              if in_choices v
              then parse_known rest' {| model := PyStr v |} extras
              else Exit 2
          end
      | Unrecognized => parse_known rest ns true
      end
  end.

Definition parse_args (argv : list string) : parse_result :=
  if ambiguous_word argv then Exit 2
  else parse_known argv {| model := PyNone |} false.



(** What each [--model] on the command line would store. *)
Fixpoint given (argv : list string) : list pyvalue :=
  match argv with
  | [] => []
  | t :: rest =>
      match classify t with
      | ModelValue v =>
          (if v =? "--" then PyEmptyList else PyStr v) :: given rest
      | ModelFlag =>
          match rest with
          | [] => []
          | v :: rest' => PyStr v :: given rest'
          end
      | _ => given rest
      end
  end.

(** The mode the command line asks for: what its last [--model] stores,
    [None] when there is none. *)
Definition mode_of (argv : list string) : pyvalue :=
  last (given argv) PyNone.

(** Is the word a [--model] option, in either spelling? *)
Definition model_word (t : string) : bool :=
  match classify t with
  | ModelFlag | ModelValue _ => true
  | _ => false
  end.


End Argparse.

Import Argparse.

(** ** Calls, answers and the process record *)

(** The two loaders [load_func] may be bound to (lines 50 and 54). *)
Inductive loader : Type :=
| load_model_and_tokenizer
| load_unsloth_model_and_tokenizer.

(** Subscripts: [d["train_demo"]], [column[0]]. *)
Inductive key : Type :=
| KStr (s : string)
| KInt (i : Z).

Section Pipeline.

(** Python objects the script only passes along: the logger, the model,
    the tokenizer, the adapter configuration, datasets, the trainer,
    exception values. *)
Variable Obj : Type.

Inductive exn : Type :=
| SystemExit (status : Z)   (* raised by [parse_args] *)
| PyError (e : Obj).        (* raised by a helper or a library *)

Inductive outcome (A : Type) : Type :=
| Ok (a : A)
| Raise (e : exn).
Arguments Ok {A} a.
Arguments Raise {A} e.

(** A log message is a string built by the script or an object taken
    from the dataset (line 72). *)
Inductive message : Type :=
| Text (s : string)
| Value (o : Obj).

(** Everything the script does to the outside, with the arguments it
    passes.  Keyword arguments are fields of the same name. *)
Inductive action : Type :=
| parse_args_of (argv : list string)
| chdir (path : string)
| print (s : string)
| CustomLogger (name : string) (level : Z)
| user_login (logger : Obj)
| logger_info (logger : Obj) (msg : message)
| load_func (f : loader) (base_model : string) (logger : Obj)
| load_and_process_dataset
    (tokenizer : Obj) (dataset_name embedding_model_name db_directory : string)
    (logger : Obj)
| load_and_prepare_unsloth_dataset
    (tokenizer : Obj) (dataset_name : string) (logger : Obj)
| getitem (o : Obj) (k : key)
| create_SFT_trainer
    (model tokenizer train_dataset eval_dataset peft_config : Obj)
    (push_to_hub : bool) (logger : Obj) (num_train_epochs : Z)
| train_and_save_model
    (trainer : Obj) (new_model : string) (push_to_hub : bool) (logger : Obj)
| del_trainer
| gc_collect
| cuda_empty_cache
| truth (o : Obj).

Inductive status : Type :=
| Returned
| Raised (e : exn).

Definition entry : Type := action * status.

(** What the outside can depend on: the working directory as the script
    itself left it (read by [os.getcwd()], changed by the script's own
    [os.chdir]) and all that was done so far, oldest first. *)
Record process : Type := { cwd : string; history : list entry }.

(** The outside.  A call is answered by its return value or by an
    exception; the answer may depend on the whole [process].  Calls are
    grouped by the shape of what the script expects back: statements such
    as [model, tokenizer, peft_config = load_func(...)] are answered as a
    whole, a failed unpacking being one of the ways to raise. *)
Record World : Type := {
  returns_object : process -> action -> outcome Obj;
  returns_nothing : process -> action -> outcome unit;
  returns_triple : process -> action -> outcome (Obj * Obj * Obj);
  returns_pair : process -> action -> outcome (Obj * Obj);
  returns_bool : process -> action -> outcome bool;
  lands_in : process -> action -> outcome string;   (* [os.chdir]: the new [os.getcwd()] *)
  os_path_abspath : string -> string -> string;   (* from the working directory *)
  os_path_dirname : string -> string
}.

(** ** The monad of the script: a log, the working directory, exceptions *)

Record result (A : Type) : Type := {
  log : list entry;          (* what this piece of code did, oldest first *)
  cwd_after : string;
  value : outcome A
}.
Arguments log {A} r.
Arguments cwd_after {A} r.
Arguments value {A} r.

Definition M (A : Type) : Type := process -> result A.

Definition ret {A} (a : A) : M A :=
  fun p => {| log := []; cwd_after := cwd p; value := Ok a |}.

(** Sequencing: the second statement runs only if the first returned,
    and sees what the first did. *)
Definition bind {A B} (m : M A) (k : A -> M B) : M B :=
  fun p =>
    let r := m p in
    match value r with
    | Ok a =>
        let r' := k a {| cwd := cwd_after r; history := history p ++ log r |} in
        {| log := log r ++ log r'; cwd_after := cwd_after r'; value := value r' |}
    | Raise e => {| log := log r; cwd_after := cwd_after r; value := Raise e |}
    end.

(** A call answered by the world. *)
Definition perform {A} (answer : process -> action -> outcome A) (a : action)
  : M A :=
  fun p =>
    match answer p a with
    | Ok v => {| log := [(a, Returned)]; cwd_after := cwd p; value := Ok v |}
    | Raise e => {| log := [(a, Raised e)]; cwd_after := cwd p; value := Raise e |}
    end.

(** A statement that cannot fail: [del trainer], the name being bound. *)
Definition note (a : action) : M unit :=
  fun p => {| log := [(a, Returned)]; cwd_after := cwd p; value := Ok tt |}.

Definition getcwd : M string :=
  fun p => {| log := []; cwd_after := cwd p; value := Ok (cwd p) |}.

(** [os.chdir(path)]: if the call returns, the working directory is the
    directory it led to, under the name [os.getcwd()] has for it, which
    need not be [path] (links are resolved). *)
Definition os_chdir (w : World) (path : string) : M unit :=
  fun p =>
    match lands_in w p (chdir path) with
    | Ok d => {| log := [(chdir path, Returned)]; cwd_after := d; value := Ok tt |}
    | Raise e =>
        {| log := [(chdir path, Raised e)]; cwd_after := cwd p; value := Raise e |}
    end.

(** [args = parser.parse_args()]: the parser's exit is a [SystemExit]. *)
Definition parse (argv : list string) : M Namespace :=
  fun p =>
    match parse_args argv with
    | Parsed args =>
        {| log := [(parse_args_of argv, Returned)]; cwd_after := cwd p;
           value := Ok args |}
    | Exit st =>
        {| log := [(parse_args_of argv, Raised (SystemExit st))];
           cwd_after := cwd p; value := Raise (SystemExit st) |}
    end.

End Pipeline.

Arguments Ok {Obj A} a.
Arguments Raise {Obj A} e.
Arguments SystemExit {Obj} status.
Arguments PyError {Obj} e.
Arguments Text {Obj} s.
Arguments Value {Obj} o.
Arguments Returned {Obj}.
Arguments Raised {Obj} e.
Arguments parse_args_of {Obj} argv.
Arguments chdir {Obj} path.
Arguments print {Obj} s.
Arguments CustomLogger {Obj} name level.
Arguments user_login {Obj} logger.
Arguments logger_info {Obj} logger msg.
Arguments load_func {Obj} f base_model logger.
Arguments load_and_process_dataset {Obj}.
Arguments load_and_prepare_unsloth_dataset {Obj}.
Arguments getitem {Obj} o k.
Arguments create_SFT_trainer {Obj}.
Arguments train_and_save_model {Obj}.
Arguments del_trainer {Obj}.
Arguments gc_collect {Obj}.
Arguments cuda_empty_cache {Obj}.
Arguments truth {Obj} o.
Arguments cwd {Obj} p.
Arguments history {Obj} p.
Arguments Build_process {Obj}.
Arguments returns_object {Obj} w.
Arguments returns_nothing {Obj} w.
Arguments returns_triple {Obj} w.
Arguments returns_pair {Obj} w.
Arguments returns_bool {Obj} w.
Arguments lands_in {Obj} w.
Arguments os_path_abspath {Obj} w.
Arguments os_path_dirname {Obj} w.
Arguments log {Obj A} r.
Arguments cwd_after {Obj A} r.
Arguments value {Obj A} r.
Arguments ret {Obj A} a.
Arguments bind {Obj A B} m k.
Arguments perform {Obj A} answer a.
Arguments note {Obj} a.
Arguments getcwd {Obj}.
Arguments os_chdir {Obj} w path.
Arguments parse {Obj} argv.

Declare Scope script_scope.
Delimit Scope script_scope with script.
Notation "x <- m ;; k" := (bind m (fun x => k))
  (at level 61, m at next level, right associativity) : script_scope.
Notation "' pat <- m ;; k" := (bind m (fun x => match x with pat => k end))
  (at level 61, pat pattern, m at next level, right associativity) : script_scope.
Notation "m ;; k" := (bind m (fun _ => k))
  (at level 61, right associativity) : script_scope.

(** ** [main] and the script around it *)

Section Script.

Context {Obj : Type}.
Variable w : World Obj.

Local Open Scope script_scope.

(** [logging.DEBUG]. *)
Definition DEBUG : Z := 10.

(** [model_type == "base"]: [None] and [[]] are not equal to a string. *)
Definition is_base (model_type : pyvalue) : bool :=
  match model_type with
  | PyStr s => s =? "base"
  | PyNone | PyEmptyList => false
  end.

(** What [{model_type}] prints in an f-string. *)
Definition format (model_type : pyvalue) : string :=
  match model_type with
  | PyStr s => s
  | PyNone => "None"
  | PyEmptyList => "[]"
  end.

(** Lines 47-54: the model identifier and the loader. *)
Definition choose_model (model_type : pyvalue) : string * loader :=
  if is_base model_type
  then ("meta-llama/Meta-Llama-3-8B-Instruct", load_model_and_tokenizer)
  else ("unsloth/Meta-Llama-3.1-8B-bnb-4bit", load_unsloth_model_and_tokenizer).

(** Line 56. *)
Definition new_model_name (model_type : pyvalue) : string :=
  "stf-" ++ format model_type ++ "-Llama-3-8B-Instruct".

Definition info (logger : Obj) (msg : message Obj) : M Obj unit :=
  perform (returns_nothing w) (logger_info logger msg).

Definition subscript (o : Obj) (k : key) : M Obj Obj :=
  perform (returns_object w) (getitem o k).

(** Lines 61-68: the dataset. *)
Definition load_dataset (model_type : pyvalue)
    (tokenizer : Obj) (embedding_model_name db_directory : string)
    (logger : Obj) : M Obj Obj :=
  if is_base model_type then
    let dataset_name := PosixPath.join ".." ["data"; "train"; "mrd3_dataset.json"] in
    info logger (Text ("Loading SFT dataset: " ++ dataset_name)) ;;
    '(dataset, _) <-
      perform (returns_pair w)
        (load_and_process_dataset tokenizer dataset_name embedding_model_name
           db_directory logger) ;;
    ret dataset
  else
    let dataset_name := "yahma/alpaca-cleaned" in
    info logger (Text ("Loading SFT dataset: " ++ dataset_name)) ;;
    perform (returns_object w)
      (load_and_prepare_unsloth_dataset tokenizer dataset_name logger).

(** Lines 82-86: release the trainer and the accelerator cache.
    [gc.collect()] and [torch.cuda.empty_cache()] are library calls like
    the others, and [if(logger)] asks the logger for its truth value. *)
Definition cleanup (logger : Obj) : M Obj unit :=
  note del_trainer ;;
  perform (returns_nothing w) gc_collect ;;
  perform (returns_nothing w) cuda_empty_cache ;;
  b <- perform (returns_bool w) (truth logger) ;;
  if (b : bool)
  then info logger (Text "Cleaned up memory post-training.")
  else ret tt.

(** [main(args)], lines 31-86, statement by statement.  [name__] is the
    module's [__name__].  Line 72 subscripts three times before it logs;
    line 76 evaluates its arguments from left to right. *)
Definition main (name__ : string) (args : Namespace) : M Obj unit :=
  let model_type := model args in
  logger <- perform (returns_object w) (CustomLogger name__ DEBUG) ;;
  perform (returns_nothing w) (user_login logger) ;;
  let embedding_model_name := "sentence-transformers/all-mpnet-base-v2" in
  let db_directory := PosixPath.join ".." ["chroma_db"] in
  let '(base_model, load_f) := choose_model model_type in
  let new_model := new_model_name model_type in
  info logger (Text ("Loading base model: " ++ base_model)) ;;
  '(model, tokenizer, peft_config) <-
    perform (returns_triple w) (load_func load_f base_model logger) ;;
  dataset <-
    load_dataset model_type tokenizer embedding_model_name db_directory logger ;;
  info logger (Text "Example of training input --------") ;;
  train_demo <- subscript dataset (KStr "train_demo") ;;
  column <- subscript train_demo (KStr "text") ;;
  example <- subscript column (KInt 0) ;;
  info logger (Value example) ;;
  info logger (Text "Creating SFT trainer...") ;;
  train_demo <- subscript dataset (KStr "train_demo") ;;
  eval_demo <- subscript dataset (KStr "eval_demo") ;;
  trainer <-
    perform (returns_object w)
      (create_SFT_trainer model tokenizer train_demo eval_demo peft_config
         true logger 1) ;;
  perform (returns_nothing w) (train_and_save_model trainer new_model true logger) ;;
  cleanup logger.

(** How the script is started. *)
Record Invocation : Type := {
  argv : list string;        (* [sys.argv[1:]] *)
  name__ : string;           (* [__name__] *)
  file__ : string;           (* [__file__] *)
  launch_dir : string        (* the working directory at start *)
}.

(** Line 97: [os.path.dirname(os.path.abspath(__file__))]. *)
Definition script_dir_of (from file : string) : string :=
  os_path_dirname w (os_path_abspath w from file).

(** Lines 96-102: move to the directory of the script. *)
Definition enter_script_dir (file : string) : M Obj unit :=
  from <- getcwd ;;
  let script_dir := script_dir_of from file in
  here <- getcwd ;;
  if negb (here =? script_dir) then
    os_chdir w script_dir ;;
    perform (returns_nothing w)
      (print ("Working directory changed to script's directory: " ++ script_dir))
  else ret tt.

(** Lines 89-105. *)
Definition script (inv : Invocation) : M Obj unit :=
  if name__ inv =? "__main__" then
    args <- parse (argv inv) ;;
    enter_script_dir (file__ inv) ;;
    main (name__ inv) args
  else ret tt.

Definition start (inv : Invocation) : process Obj :=
  {| cwd := launch_dir inv; history := [] |}.

Definition run_script (inv : Invocation) : result Obj unit :=
  script inv (start inv).

End Script.

(** ** Reading a log *)

(** The two ways a dataset is obtained (lines 64 and 68). *)
Inductive dataset_step : Type :=
| by_load_and_process_dataset
| by_load_and_prepare_unsloth_dataset.

Section Observations.

Context {Obj : Type}.

Definition is_login (a : action Obj) : bool :=
  match a with user_login _ => true | _ => false end.

(** The loader called and the identifier it was given. *)
Definition model_loaded (a : action Obj) : option (loader * string) :=
  match a with
  | load_func f base_model _ => Some (f, base_model)
  | _ => None
  end.

(** The dataset function called and the source it was given. *)
Definition dataset_loaded (a : action Obj) : option (dataset_step * string) :=
  match a with
  | load_and_process_dataset _ dataset_name _ _ _ =>
      Some (by_load_and_process_dataset, dataset_name)
  | load_and_prepare_unsloth_dataset _ dataset_name _ =>
      Some (by_load_and_prepare_unsloth_dataset, dataset_name)
  | _ => None
  end.

(** The embedding model and the vector-store directory, where the
    dataset function takes them. *)
Definition vector_store (a : action Obj) : option (string * string) :=
  match a with
  | load_and_process_dataset _ _ embedding_model_name db_directory _ =>
      Some (embedding_model_name, db_directory)
  | _ => None
  end.

Definition is_access (a : action Obj) : bool :=
  match model_loaded a, dataset_loaded a with
  | None, None => false
  | _, _ => true
  end.

Definition is_train (a : action Obj) : bool :=
  match a with train_and_save_model _ _ _ _ => true | _ => false end.

Definition is_cleanup (a : action Obj) : bool :=
  match a with
  | del_trainer | gc_collect | cuda_empty_cache => true
  | _ => false
  end.

Definition is_del (a : action Obj) : bool :=
  match a with del_trainer => true | _ => false end.

Definition returned (e : entry Obj) : bool :=
  match snd e with Returned => true | Raised _ => false end.

Definition raised (e : entry Obj) : bool := negb (returned e).

(** Did some action of this kind return / raise? *)
Definition some_returned (kind : action Obj -> bool) (l : list (entry Obj)) : bool :=
  existsb (fun e => kind (fst e) && returned e) l.

Definition some_raised (kind : action Obj -> bool) (l : list (entry Obj)) : bool :=
  existsb (fun e => kind (fst e) && raised e) l.

(** The clean-up actions of a log, in order. *)
Definition cleanup_of (l : list (entry Obj)) : list (action Obj) :=
  filter is_cleanup (map fst l).

(** What a log shows of one kind of information, in order. *)
Definition collect {B} (f : action Obj -> option B) (l : list (entry Obj)) : list B :=
  flat_map (fun e => match f (fst e) with Some b => [b] | None => [] end) l.

Definition shows {B} (f : action Obj -> option B) (a : action Obj) : bool :=
  match f a with Some _ => true | None => false end.

(** The hyperparameters given to the trainer factory, and to the
    training run. *)
Definition trainer_made (a : action Obj) : option (bool * Z) :=
  match a with
  | create_SFT_trainer _ _ _ _ _ push_to_hub _ num_train_epochs =>
      Some (push_to_hub, num_train_epochs)
  | _ => None
  end.

Definition training_run (a : action Obj) : option bool :=
  match a with
  | train_and_save_model _ _ push_to_hub _ => Some push_to_hub
  | _ => None
  end.

Definition saved_as (a : action Obj) : option string :=
  match a with
  | train_and_save_model _ new_model _ _ => Some new_model
  | _ => None
  end.

Definition is_gc_collect (a : action Obj) : bool :=
  match a with gc_collect => true | _ => false end.

(** What the script does before it calls [main]. *)
Definition is_prelude (a : action Obj) : bool :=
  match a with
  | parse_args_of _ | chdir _ | print _ => true
  | _ => false
  end.

Definition prelude (e : entry Obj) : bool := is_prelude (fst e).


(** The model call and the dataset call that belong to a mode. *)
Definition model_for (model_type : pyvalue) : loader * string :=
  if is_base model_type
  then (load_model_and_tokenizer, "meta-llama/Meta-Llama-3-8B-Instruct")
  else (load_unsloth_model_and_tokenizer, "unsloth/Meta-Llama-3.1-8B-bnb-4bit").

Definition dataset_for (model_type : pyvalue) : dataset_step * string :=
  if is_base model_type
  then (by_load_and_process_dataset, "../data/train/mrd3_dataset.json")
  else (by_load_and_prepare_unsloth_dataset, "yahma/alpaca-cleaned").

Definition base_args : Namespace := {| model := PyStr "base" |}.
Definition unsloth_args : Namespace := {| model := PyStr "unsloth" |}.

(** Training and clean-up are what the clean-up property is about. *)
Definition concerns (a : action Obj) : bool := is_train a || is_cleanup a.

Definition relevant (l : list (entry Obj)) : list (entry Obj) :=
  filter (fun e => concerns (fst e)) l.

(** The five ways the end of a run can look, reduced to training and
    clean-up: training not reached; training raised; training returned and
    then the trainer was dropped and the collector run, which raised, or
    returned and the cache release raised, or returned. *)
Inductive training_tail : list (entry Obj) -> Prop :=
| tail_not_reached : training_tail []
| tail_training_raised t n b lg e :
    training_tail [(train_and_save_model t n b lg, Raised e)]
| tail_collect_raised t n b lg e :
    training_tail
      [(train_and_save_model t n b lg, Returned); (del_trainer, Returned);
       (gc_collect, Raised e)]
| tail_release_raised t n b lg e :
    training_tail
      [(train_and_save_model t n b lg, Returned); (del_trainer, Returned);
       (gc_collect, Returned); (cuda_empty_cache, Raised e)]
| tail_released t n b lg :
    training_tail
      [(train_and_save_model t n b lg, Returned); (del_trainer, Returned);
       (gc_collect, Returned); (cuda_empty_cache, Returned)].

Definition ends_well {A} (m : M Obj A) : Prop :=
  forall p, training_tail (relevant (log (m p))).

(** [guarded opens needs l]: reading [l] from the oldest entry, an entry
    satisfying [opens] is met before any entry satisfying [needs]. *)
Fixpoint guarded (opens needs : entry Obj -> bool) (l : list (entry Obj)) : bool :=
  match l with
  | [] => true
  | e :: rest =>
      if needs e then false
      else if opens e then true
      else guarded opens needs rest
  end.

Definition login_returned (e : entry Obj) : bool :=
  is_login (fst e) && returned e.

(** A log and an outcome that fit: every action but the last returned,
    and the outcome is an exception exactly when the last action raised
    it. *)
Definition faithful {A} (l : list (entry Obj)) (v : outcome Obj A) : Prop :=
  match v with
  | Ok _ => forallb returned l = true
  | Raise e =>
      exists before a,
        l = before ++ [(a, Raised e)] /\ forallb returned before = true
  end.

Definition disciplined {A} (m : M Obj A) : Prop :=
  forall p, faithful (log (m p)) (value (m p)).

(** A piece of code that does nothing of a given kind. *)
Definition mute {A} (kind : action Obj -> bool) (m : M Obj A) : Prop :=
  forall p, forallb (fun e => negb (kind (fst e))) (log (m p)) = true.

(** A run that ended because an action raised: that action is the last
    of the log, everything before it returned, and what it raised is the
    outcome of the run. *)
Definition stopped {A} (r : result Obj A) : Prop :=
  exists before a e,
    log r = before ++ [(a, Raised e)] /\
    forallb returned before = true /\
    value r = Raise e.

(** A world in which no call raises. *)
Definition obliging (w : World Obj) : Prop :=
  forall p a e,
    returns_object w p a <> Raise e /\
    returns_nothing w p a <> Raise e /\
    returns_triple w p a <> Raise e /\
    returns_pair w p a <> Raise e /\
    returns_bool w p a <> Raise e /\
    lands_in w p a <> Raise e.

(** A piece of code that returns. *)
Definition completes {A} (m : M Obj A) : Prop :=
  forall p, exists v, value (m p) = Ok v.

(** A piece of code that shows exactly [x], unless it raised before
    getting there. *)
Definition emits {A B} (f : action Obj -> option B) (x : B) (m : M Obj A) : Prop :=
  forall p,
    collect f (log (m p)) = [x] \/
    (collect f (log (m p)) = [] /\ exists e, value (m p) = Raise e).

End Observations.

(** ** Sample worlds (objects are numbers) *)

Module Sample.

(** The directory part of a path written with single separators. *)
Fixpoint parent_dir_aux (s : string) : option string :=
  match s with
  | EmptyString => None
  | String c rest =>
      match parent_dir_aux rest with
      | Some h => Some (String c h)
      | None => if Ascii.eqb c "/" then Some EmptyString else None
      end
  end.

Definition parent_dir (s : string) : string :=
  match parent_dir_aux s with
  | Some h => if h =? "" then "/" else h
  | None => ""
  end.

Definition answer {A} (fails : action nat -> bool) (v : A) (a : action nat)
  : outcome nat A :=
  if fails a then Raise (PyError 13%nat) else Ok v.

(** A world in which exactly the actions selected by [fails] raise (the
    exception object 13); objects are numbered by the moment they are
    made; [truthy] is the truth value of every object. *)
Definition world (fails : action nat -> bool) (truthy : bool) : World nat := {|
  returns_object := fun p a => answer fails (100 + length (history p))%nat a;
  returns_nothing := fun p a => answer fails tt a;
  returns_triple := fun p a => answer fails (1, 2, 3)%nat a;
  returns_pair := fun p a => answer fails (4, 5)%nat a;
  returns_bool := fun p a => answer fails truthy a;
  lands_in := fun p a =>
    match a with
    | chdir path => answer fails path a
    | _ => answer fails (cwd p) a
    end;
  os_path_abspath := fun from f =>
    if String.prefix "/" f then f else PosixPath.join from [f];
  os_path_dirname := parent_dir
|}.

Definition never (a : action nat) : bool := false.

Definition calm : World nat := world never true.

Definition invocation (args : list string) (dir : string) : Invocation := {|
  argv := args;
  name__ := "__main__";
  file__ := "/srv/app/script/main.py";
  launch_dir := dir
|}.

(** A process with nothing behind it, in some directory. *)
Definition fresh : process nat := {| cwd := "/home/user"; history := [] |}.

(** The world in which logging in fails, and the one in which training
    fails. *)
Definition no_login : World nat := world is_login true.
Definition no_training : World nat := world is_train true.

(** The log of [main], mode "base", when nothing fails. *)
Definition base_log : list (entry nat) :=
  log (main calm "__main__" base_args fresh).

Definition base_from_home : Invocation :=
  invocation ["--model"; "base"] "/home/user".

Definition unsloth_in_place : Invocation :=
  invocation ["--model=unsloth"] "/srv/app/script".


Definition bare : Invocation := invocation [] "/home/user".


(** The calm world, with the script's directory reached through a link:
    after [os.chdir("/srv/app/script")] the working directory is
    "/mnt/disk/app/script". *)
Definition linked : World nat := {|
  returns_object := returns_object calm;
  returns_nothing := returns_nothing calm;
  returns_triple := returns_triple calm;
  returns_pair := returns_pair calm;
  returns_bool := returns_bool calm;
  lands_in := fun p a =>
    match a with
    | chdir path =>
        if path =? "/srv/app/script" then Ok "/mnt/disk/app/script" else Ok path
    | _ => Ok (cwd p)
    end;
  os_path_abspath := os_path_abspath calm;
  os_path_dirname := os_path_dirname calm
|}.

End Sample.

(** ** More ways to read a command line and a log *)


(** The spellings of the flag: [--model] and its abbreviations. *)
Definition model_flag_spellings : list string :=
  ["--m"; "--mo"; "--mod"; "--mode"; "--model"].

Section Provenance.

Context {Obj : Type}.

(** The logger an action is given. *)
Definition logger_of (a : action Obj) : option Obj :=
  match a with
  | user_login l | logger_info l _ | load_func _ _ l
  | load_and_process_dataset _ _ _ _ l
  | load_and_prepare_unsloth_dataset _ _ l
  | create_SFT_trainer _ _ _ _ _ _ l _
  | train_and_save_model _ _ _ l | truth l => Some l
  | _ => None
  end.

(** The tokenizer an action is given. *)
Definition tokenizer_of (a : action Obj) : option Obj :=
  match a with
  | load_and_process_dataset t _ _ _ _
  | load_and_prepare_unsloth_dataset t _ _
  | create_SFT_trainer _ t _ _ _ _ _ _ => Some t
  | _ => None
  end.

(** The model, tokenizer and adapter configuration the trainer factory
    is given. *)
Definition built_from (a : action Obj) : option (Obj * Obj * Obj) :=
  match a with
  | create_SFT_trainer m t _ _ c _ _ _ => Some (m, t, c)
  | _ => None
  end.

(** The splits the trainer factory is given. *)
Definition splits_of (a : action Obj) : option (Obj * Obj) :=
  match a with
  | create_SFT_trainer _ _ tr ev _ _ _ _ => Some (tr, ev)
  | _ => None
  end.

(** The trainer that is trained. *)
Definition trained (a : action Obj) : option Obj :=
  match a with
  | train_and_save_model t _ _ _ => Some t
  | _ => None
  end.

Definition is_factory (a : action Obj) : bool :=
  match a with create_SFT_trainer _ _ _ _ _ _ _ _ => true | _ => false end.

(** The last line the script logs (line 86). *)
Definition is_report (a : action Obj) : bool :=
  match a with
  | logger_info _ (Text s) => s =? "Cleaned up memory post-training."
  | _ => false
  end.

(** Does the log hold the last line? *)
Definition reports (l : list (entry Obj)) : bool :=
  existsb (fun e => is_report (fst e)) l.

(** Training and the whole clean-up were done. *)
Definition released (l : list (entry Obj)) : Prop :=
  exists t n b lg,
    relevant l =
    [(train_and_save_model t n b lg, Returned); (del_trainer, Returned);
     (gc_collect, Returned); (cuda_empty_cache, Returned)].

Definition reports_well {A} (m : M Obj A) : Prop :=
  forall p, reports (log (m p)) = true -> released (log (m p)).

(** Entries of a kind that returned. *)
Definition returned_of (kind : action Obj -> bool) (e : entry Obj) : bool :=
  kind (fst e) && returned e.

(** Every action of a piece of code satisfies [P]. *)
Definition all_actions {A} (P : action Obj -> Prop) (m : M Obj A) : Prop :=
  forall p, Forall (fun e => P (fst e)) (log (m p)).

(** A piece of code that has done something of kind [opens], and nothing
    of kind [needs], whenever it returns. *)
Definition opens_on_return {A} (opens : entry Obj -> bool)
    (needs : action Obj -> bool) (m : M Obj A) : Prop :=
  forall p,
    forallb (fun e => negb (needs (fst e))) (log (m p)) = true /\
    forall v, value (m p) = Ok v -> existsb opens (log (m p)) = true.

(** A piece of code in whose log [opens] comes before [needs]. *)
Definition in_order {A} (opens : entry Obj -> bool)
    (needs : action Obj -> bool) (m : M Obj A) : Prop :=
  forall p, guarded opens (fun e => needs (fst e)) (log (m p)) = true.

End Provenance.

(** * Properties *)

Example parse_examples :
  parse_args [] = Parsed {| model := PyNone |} /\
  parse_args ["--model"; "base"] = Parsed {| model := PyStr "base" |} /\
  parse_args ["--mo=unsloth"] = Parsed {| model := PyStr "unsloth" |} /\
  parse_args ["--model"; "base"; "--model"; "unsloth"]
    = Parsed {| model := PyStr "unsloth" |} /\
  parse_args ["--model=--"] = Parsed {| model := PyEmptyList |} /\
  parse_args ["--model"; "--"] = Exit 2 /\
  parse_args ["-h=h"; "--model"; "orpo"] = Exit 0 /\
  parse_args ["-h="] = Exit 2 /\
  parse_args ["--model"; "orpo"] = Exit 2 /\
  parse_args ["--model"] = Exit 2 /\
  parse_args ["x"; "--model"; "base"] = Exit 2 /\
  parse_args ["x"; "-hh"] = Exit 0 /\
  parse_args ["-h"; "--=x"] = Exit 2 /\
  parse_args ["--"] = Exit 2.
Proof. repeat split; reflexivity. Qed.

Example join_examples :
  PosixPath.join ".." ["chroma_db"] = "../chroma_db" /\
  PosixPath.join ".." ["data"; "train"; "mrd3_dataset.json"]
    = "../data/train/mrd3_dataset.json".
Proof. split; reflexivity. Qed.

(** ** Rules of the monad *)

Section Sequencing.

Context {Obj : Type}.

Lemma bind_ok {A B} (m : M Obj A) (k : A -> M Obj B) (p : process Obj) a :
  value (m p) = Ok a ->
  let p' := {| cwd := cwd_after (m p); history := history p ++ log (m p) |} in
  log (bind m k p) = log (m p) ++ log (k a p') /\
  value (bind m k p) = value (k a p') /\
  cwd_after (bind m k p) = cwd_after (k a p').
Proof. unfold bind; intros ->; simpl; auto. Qed.

Lemma bind_raise {A B} (m : M Obj A) (k : A -> M Obj B) (p : process Obj) e :
  value (m p) = Raise e ->
  log (bind m k p) = log (m p) /\
  value (bind m k p) = Raise e /\
  cwd_after (bind m k p) = cwd_after (m p).
Proof. unfold bind; intros ->; simpl; auto. Qed.

End Sequencing.

(** Every run of a sequence is one of the two. *)
Ltac bind_cases m k p :=
  let a := fresh "a" in
  let e := fresh "e" in
  let E := fresh "E" in
  let Hl := fresh "Hl" in
  let Hv := fresh "Hv" in
  let Hc := fresh "Hc" in
  destruct (value (m p)) as [a | e] eqn:E;
  [ destruct (bind_ok m k p a E) as (Hl & Hv & Hc)
  | destruct (bind_raise m k p e E) as (Hl & Hv & Hc) ].

Section Rules.

Context {Obj : Type}.
Implicit Types (p : process Obj) (l : list (entry Obj)) (kind : action Obj -> bool).

(** *** [mute] *)

Lemma mute_ret {A} kind (a : A) : mute kind (ret a).
Proof. intro p; reflexivity. Qed.

Lemma mute_getcwd kind : mute kind (@getcwd Obj).
Proof. intro p; reflexivity. Qed.

Lemma mute_perform {A} kind (ans : process Obj -> action Obj -> outcome Obj A) a :
  kind a = false -> mute kind (perform ans a).
Proof.
  intros Ha p; unfold perform.
  destruct (ans p a); simpl; rewrite Ha; reflexivity.
Qed.

Lemma mute_note kind a : kind a = false -> mute kind (note a).
Proof. intros Ha p; simpl; rewrite Ha; reflexivity. Qed.

Lemma mute_chdir kind (w : World Obj) path :
  kind (chdir path) = false -> mute kind (os_chdir w path).
Proof.
  intros Ha p; unfold os_chdir.
  destruct (lands_in w p (chdir path)); simpl; rewrite Ha; reflexivity.
Qed.

Lemma mute_parse kind argv :
  kind (parse_args_of argv) = false -> mute kind (parse argv).
Proof.
  intros Ha p; unfold parse.
  destruct (parse_args argv); simpl; rewrite Ha; reflexivity.
Qed.

Lemma mute_bind {A B} kind (m : M Obj A) (k : A -> M Obj B) :
  mute kind m -> (forall a, mute kind (k a)) -> mute kind (bind m k).
Proof.
  intros Hm Hk p.
  bind_cases m k p; rewrite Hl.
  - rewrite forallb_app, Hm. apply Hk.
  - apply Hm.
Qed.

Lemma mute_collect {A B} (f : action Obj -> option B) (m : M Obj A) p :
  mute (shows f) m -> collect f (log (m p)) = [].
Proof.
  intros Hm. specialize (Hm p). unfold collect.
  induction (log (m p)) as [| e l IH]; simpl in *; [reflexivity|].
  apply andb_prop in Hm as [He Hl]. unfold shows in He.
  destruct (f (fst e)); [discriminate He|]. simpl. auto.
Qed.

(** *** [emits] *)

Lemma collect_app {B} (f : action Obj -> option B) l1 l2 :
  collect f (l1 ++ l2) = collect f l1 ++ collect f l2.
Proof. unfold collect. apply flat_map_app. Qed.

Lemma emits_perform {A B} (f : action Obj -> option B) x
    (ans : process Obj -> action Obj -> outcome Obj A) a :
  f a = Some x -> emits f x (perform ans a).
Proof.
  intros Ha p; left; unfold perform.
  destruct (ans p a); simpl; rewrite Ha; reflexivity.
Qed.

Lemma emits_then {A B C} (f : action Obj -> option C) x
    (m : M Obj A) (k : A -> M Obj B) :
  emits f x m -> (forall a, mute (shows f) (k a)) -> emits f x (bind m k).
Proof.
  intros Hm Hk p.
  bind_cases m k p; rewrite Hl, Hv.
  - rewrite collect_app, (mute_collect f (k a) _ (Hk a)), app_nil_r.
    destruct (Hm p) as [H | [H [e He]]]; [left; exact H|].
    rewrite E in He; discriminate He.
  - destruct (Hm p) as [H | [H _]]; [left; exact H|].
    right; split; [exact H | exists e; reflexivity].
Qed.

Lemma emits_after {A B C} (f : action Obj -> option C) x
    (m : M Obj A) (k : A -> M Obj B) :
  mute (shows f) m -> (forall a, emits f x (k a)) -> emits f x (bind m k).
Proof.
  intros Hm Hk p.
  bind_cases m k p; rewrite Hl, Hv.
  - rewrite collect_app, (mute_collect f m p Hm). simpl. apply Hk.
  - right; split; [apply mute_collect, Hm | exists e; reflexivity].
Qed.

(** *** [disciplined] *)

Lemma disciplined_ret {A} (a : A) : disciplined (@ret Obj A a).
Proof. intro p; reflexivity. Qed.

Lemma disciplined_getcwd : disciplined (@getcwd Obj).
Proof. intro p; reflexivity. Qed.

Lemma disciplined_note a : disciplined (@note Obj a).
Proof. intro p; reflexivity. Qed.

Lemma disciplined_perform {A} (ans : process Obj -> action Obj -> outcome Obj A) a :
  disciplined (perform ans a).
Proof.
  intro p; unfold perform.
  destruct (ans p a); simpl; [reflexivity|].
  exists [], a; split; reflexivity.
Qed.

Lemma disciplined_chdir (w : World Obj) path : disciplined (os_chdir w path).
Proof.
  intro p; unfold os_chdir.
  destruct (lands_in w p (chdir path)); simpl; [reflexivity|].
  exists [], (chdir path); split; reflexivity.
Qed.

Lemma disciplined_parse argv : disciplined (@parse Obj argv).
Proof.
  intro p; unfold parse.
  destruct (parse_args argv); simpl; [reflexivity|].
  exists [], (parse_args_of argv); split; reflexivity.
Qed.

Lemma disciplined_bind {A B} (m : M Obj A) (k : A -> M Obj B) :
  disciplined m -> (forall a, disciplined (k a)) -> disciplined (bind m k).
Proof.
  intros Hm Hk p. unfold faithful.
  bind_cases m k p; rewrite Hl, Hv.
  - specialize (Hm p). rewrite E in Hm. simpl in Hm.
    specialize (Hk a {| cwd := cwd_after (m p); history := history p ++ log (m p) |}).
    unfold faithful in Hk.
    destruct (value (k a _)) as [b | e].
    + rewrite forallb_app, Hm. exact Hk.
    + destruct Hk as (before & act & Hlog & Hb).
      exists (log (m p) ++ before), act. split.
      * rewrite Hlog, app_assoc. reflexivity.
      * rewrite forallb_app, Hm. exact Hb.
  - specialize (Hm p). rewrite E in Hm. exact Hm.
Qed.

(** *** [completes] *)

Lemma completes_ret {A} (a : A) : completes (@ret Obj A a).
Proof. intro p; simpl; eauto. Qed.

Lemma completes_getcwd : completes (@getcwd Obj).
Proof. intro p; simpl; eauto. Qed.

Lemma completes_note a : completes (@note Obj a).
Proof. intro p; simpl; eauto. Qed.

Lemma completes_perform {A} (ans : process Obj -> action Obj -> outcome Obj A) a :
  (forall p e, ans p a <> Raise e) -> completes (perform ans a).
Proof.
  intros Hans p. unfold perform.
  destruct (ans p a) as [v | e] eqn:E; simpl; [eauto|].
  destruct (Hans p e E).
Qed.

Lemma completes_chdir (w : World Obj) path :
  (forall p e, lands_in w p (chdir path) <> Raise e) -> completes (os_chdir w path).
Proof.
  intros Hans p. unfold os_chdir.
  destruct (lands_in w p (chdir path)) as [v | e] eqn:E; simpl; [eauto|].
  destruct (Hans p e E).
Qed.

Lemma completes_bind {A B} (m : M Obj A) (k : A -> M Obj B) :
  completes m -> (forall a, completes (k a)) -> completes (bind m k).
Proof.
  intros Hm Hk p. destruct (Hm p) as [v Hv0].
  destruct (bind_ok m k p v Hv0) as (_ & Hv & _). rewrite Hv. apply Hk.
Qed.

(** What [emits] gives for a run that keeps its log, and for one that
    returns. *)
Lemma emits_or_stopped {A B} (f : action Obj -> option B) x (m : M Obj A) p :
  emits f x m -> disciplined m ->
  collect f (log (m p)) = [x] \/
  collect f (log (m p)) = [] /\ stopped (m p).
Proof.
  intros He Hd. destruct (He p) as [H | [H [e Hv]]]; [left; exact H|].
  right. split; [exact H|].
  specialize (Hd p). rewrite Hv in Hd. destruct Hd as (before & a & Hl & Hb).
  exists before, a, e. auto.
Qed.

Lemma emits_when_completes {A B} (f : action Obj -> option B) x (m : M Obj A) p :
  emits f x m -> completes m -> collect f (log (m p)) = [x].
Proof.
  intros He Hc. destruct (He p) as [H | [_ [e Hv]]]; [exact H|].
  destruct (Hc p) as [v Hv']. congruence.
Qed.

End Rules.


(** ** Reading logs *)

Section Logs.

Context {Obj : Type}.
Implicit Types (l before after : list (entry Obj)).

Lemma guarded_sound opens needs l :
  guarded opens needs l = true ->
  forall before e after,
    l = before ++ e :: after -> needs e = true ->
    exists o, In o before /\ opens o = true.
Proof.
  induction l as [| x rest IH]; intros G before e after Hsplit He.
  - destruct before; simpl in Hsplit; discriminate Hsplit.
  - simpl in G. destruct (needs x) eqn:Nx; [discriminate G|].
    destruct before as [| b before'].
    + simpl in Hsplit. injection Hsplit as -> _. congruence.
    + simpl in Hsplit. injection Hsplit as <- Hrest.
      destruct (opens x) eqn:Ox.
      * exists x. split; [left; reflexivity | exact Ox].
      * destruct (IH G before' e after Hrest He) as (o & Ho & Hop).
        exists o. split; [right; exact Ho | exact Hop].
Qed.

Lemma guarded_free opens needs l :
  forallb (fun e => negb (needs e)) l = true -> guarded opens needs l = true.
Proof.
  induction l as [| x rest IH]; simpl; [reflexivity|].
  intros H. apply andb_prop in H as [Hx Hrest].
  destruct (needs x); [discriminate Hx|].
  destruct (opens x); auto.
Qed.

Lemma perform_returned {A} (ans : process Obj -> action Obj -> outcome Obj A) a p v :
  value (perform ans a p) = Ok v -> log (perform ans a p) = [(a, Returned)].
Proof. unfold perform. destruct (ans p a); simpl; [reflexivity | discriminate]. Qed.

Lemma perform_raised {A} (ans : process Obj -> action Obj -> outcome Obj A) a p e :
  value (perform ans a p) = Raise e -> log (perform ans a p) = [(a, Raised e)].
Proof.
  unfold perform. destruct (ans p a); simpl; [discriminate|].
  intros H; injection H as ->; reflexivity.
Qed.

(** In a log that fits its outcome, an action that raised is the last
    one, and what it raised is the outcome. *)
Lemma faithful_raised {A} l (v : outcome Obj A) a e :
  faithful l v -> In (a, Raised e) l ->
  v = Raise e /\
  exists before, l = before ++ [(a, Raised e)] /\ forallb returned before = true.
Proof.
  unfold faithful. intros F Hin.
  destruct v as [x | e'].
  - exfalso. rewrite forallb_forall in F. specialize (F _ Hin). discriminate F.
  - destruct F as (before & a' & -> & Hb).
    apply in_app_or in Hin as [Hin | [Heq | []]].
    + exfalso. rewrite forallb_forall in Hb. specialize (Hb _ Hin). discriminate Hb.
    + injection Heq as -> ->. split; [reflexivity|].
      exists before. split; [reflexivity | exact Hb].
Qed.

End Logs.

(** ** The rules applied to the script *)

Ltac open_pairs :=
  repeat match goal with x : (_ * _)%type |- _ => destruct x end;
  cbv beta iota.

Ltac open_script :=
  unfold script, enter_script_dir, main, cleanup, load_dataset,
    info, subscript;
  cbv beta zeta.

Ltac branch :=
  match goal with
  | |- context [if ?b then _ else _] => destruct b
  | |- context [let (_, _) := ?x in _] => destruct x
  end.

(** A piece of code built from calls of other kinds is [mute]. *)
Ltac quiet :=
  repeat first
    [ apply mute_ret | apply mute_getcwd
    | apply mute_note; reflexivity
    | apply mute_perform; reflexivity
    | apply mute_chdir; reflexivity
    | apply mute_parse; reflexivity
    | apply mute_bind; [ | intros ?; open_pairs ]
    | branch ].

(** A sequence with one call of the kind looked for [emits] it: what
    comes before and after is [mute]. *)
Ltac emit :=
  first
    [ apply emits_perform; reflexivity
    | apply emits_then; [ emit | intros ?; open_pairs; solve [quiet] ]
    | apply emits_after; [ solve [quiet] | intros ?; open_pairs; emit ] ].

Ltac orderly :=
  repeat first
    [ apply disciplined_ret | apply disciplined_getcwd | apply disciplined_note
    | apply disciplined_perform | apply disciplined_chdir
    | apply disciplined_parse
    | apply disciplined_bind; [ | intros ?; open_pairs ]
    | branch ].

(** In a world where no call raises, a piece of code made of calls
    returns. *)
Ltac finishing Hob :=
  repeat first
    [ apply completes_ret | apply completes_getcwd | apply completes_note
    | apply completes_perform; intros ? ?; apply Hob
    | apply completes_chdir; intros ? ?; apply Hob
    | apply completes_bind; [ | intros ?; open_pairs ]
    | branch ].

Section ScriptFacts.

Context {Obj : Type}.
Variable w : World Obj.

Lemma main_disciplined name args : disciplined (main w name args).
Proof. open_script. orderly. Qed.

Lemma script_disciplined inv : disciplined (script w inv).
Proof. open_script. orderly. Qed.

Lemma main_completes name args : obliging w -> completes (main w name args).
Proof. intros Hob. open_script. finishing Hob. Qed.

End ScriptFacts.

(** ** Which model, which dataset, which hyperparameters *)

Section Selection.

Context {Obj : Type}.
Variable w : World Obj.

Lemma base_model_emitted name :
  emits model_loaded
    (load_model_and_tokenizer, "meta-llama/Meta-Llama-3-8B-Instruct")
    (main w name base_args).
Proof. open_script. simpl. emit. Qed.

Lemma unsloth_model_emitted name :
  emits model_loaded
    (load_unsloth_model_and_tokenizer, "unsloth/Meta-Llama-3.1-8B-bnb-4bit")
    (main w name unsloth_args).
Proof. open_script. simpl. emit. Qed.

(** C1.  In every run of [main] with mode "base" the one model-loading
    call is [load_model_and_tokenizer] on "meta-llama/Meta-Llama-3-8B-Instruct",
    and with mode "unsloth" it is [load_unsloth_model_and_tokenizer] on
    "unsloth/Meta-Llama-3.1-8B-bnb-4bit".  The call is missing only from
    a run that an earlier action stopped by raising, and it is made in
    every run in which no call raises. *)
Theorem main_selects_model_and_loader name p :
  let base_run := main w name base_args p in
  let unsloth_run := main w name unsloth_args p in
  let base_call := (load_model_and_tokenizer, "meta-llama/Meta-Llama-3-8B-Instruct") in
  let unsloth_call :=
    (load_unsloth_model_and_tokenizer, "unsloth/Meta-Llama-3.1-8B-bnb-4bit") in
  (collect model_loaded (log base_run) = [base_call] \/
   collect model_loaded (log base_run) = [] /\ stopped base_run) /\
  (obliging w ->
   collect model_loaded (log base_run) = [base_call] /\ value base_run = Ok tt) /\
  (collect model_loaded (log unsloth_run) = [unsloth_call] \/
   collect model_loaded (log unsloth_run) = [] /\ stopped unsloth_run) /\
  (obliging w ->
   collect model_loaded (log unsloth_run) = [unsloth_call] /\
   value unsloth_run = Ok tt).
Proof.
  intros base_run unsloth_run base_call unsloth_call.
  split; [|split; [|split]].
  - apply emits_or_stopped; [apply base_model_emitted | apply main_disciplined].
  - intros Hob. pose proof (main_completes w name base_args Hob) as Hc. split.
    + apply emits_when_completes; [apply base_model_emitted | exact Hc].
    + destruct (Hc p) as [[] Hv]. exact Hv.
  - apply emits_or_stopped; [apply unsloth_model_emitted | apply main_disciplined].
  - intros Hob. pose proof (main_completes w name unsloth_args Hob) as Hc. split.
    + apply emits_when_completes; [apply unsloth_model_emitted | exact Hc].
    + destruct (Hc p) as [[] Hv]. exact Hv.
Qed.

Lemma base_dataset_emitted name :
  emits dataset_loaded
    (by_load_and_process_dataset, "../data/train/mrd3_dataset.json")
    (main w name base_args).
Proof. open_script. simpl. emit. Qed.

Lemma base_vector_store_emitted name :
  emits vector_store
    ("sentence-transformers/all-mpnet-base-v2", "../chroma_db")
    (main w name base_args).
Proof. open_script. simpl. emit. Qed.

Lemma unsloth_dataset_emitted name :
  emits dataset_loaded
    (by_load_and_prepare_unsloth_dataset, "yahma/alpaca-cleaned")
    (main w name unsloth_args).
Proof. open_script. simpl. emit. Qed.

Lemma unsloth_no_vector_store name :
  mute (shows vector_store) (main w name unsloth_args).
Proof. open_script. simpl. quiet. Qed.

(** The dataset call that takes a vector store is the one that shows it. *)
Lemma vector_store_with_dataset (l : list (entry Obj)) x :
  collect dataset_loaded l = [(by_load_and_process_dataset, x)] ->
  collect vector_store l <> [].
Proof.
  unfold collect.
  induction l as [| [a st] l IH]; simpl; [discriminate|].
  destruct a; simpl; auto; discriminate.
Qed.

(** C2.  In every run of [main] with mode "base" the one dataset call is
    [load_and_process_dataset] on the path "../data/train/mrd3_dataset.json",
    with the embedding model and the vector store "../chroma_db" it
    retrieves against; with mode "unsloth" it is
    [load_and_prepare_unsloth_dataset] on "yahma/alpaca-cleaned", and no
    vector store is involved.  The call is missing only from a run that an
    earlier action stopped by raising, and it is made in every run in
    which no call raises. *)
Theorem main_selects_dataset name p :
  let base_run := main w name base_args p in
  let unsloth_run := main w name unsloth_args p in
  let local_json := (by_load_and_process_dataset, "../data/train/mrd3_dataset.json") in
  let store := ("sentence-transformers/all-mpnet-base-v2", "../chroma_db") in
  let public := (by_load_and_prepare_unsloth_dataset, "yahma/alpaca-cleaned") in
  PosixPath.join ".." ["data"; "train"; "mrd3_dataset.json"]
    = "../data/train/mrd3_dataset.json" /\
  (collect dataset_loaded (log base_run) = [local_json] /\
   collect vector_store (log base_run) = [store] \/
   collect dataset_loaded (log base_run) = [] /\ stopped base_run) /\
  (obliging w ->
   collect dataset_loaded (log base_run) = [local_json] /\
   collect vector_store (log base_run) = [store] /\
   value base_run = Ok tt) /\
  (collect dataset_loaded (log unsloth_run) = [public] /\
   collect vector_store (log unsloth_run) = [] \/
   collect dataset_loaded (log unsloth_run) = [] /\ stopped unsloth_run) /\
  (obliging w ->
   collect dataset_loaded (log unsloth_run) = [public] /\
   collect vector_store (log unsloth_run) = [] /\
   value unsloth_run = Ok tt).
Proof.
  intros base_run unsloth_run local_json store public.
  split; [reflexivity|]. split; [|split; [|split]].
  - destruct (emits_or_stopped _ _ _ p (base_dataset_emitted name)
                (main_disciplined w name base_args)) as [Hd | Hd];
      [left | right; exact Hd].
    split; [exact Hd|].
    destruct (base_vector_store_emitted name p) as [Hv | [Hv _]]; [exact Hv|].
    destruct (vector_store_with_dataset _ _ Hd Hv).
  - intros Hob. pose proof (main_completes w name base_args Hob) as Hc.
    split; [|split].
    + apply emits_when_completes; [apply base_dataset_emitted | exact Hc].
    + apply emits_when_completes; [apply base_vector_store_emitted | exact Hc].
    + destruct (Hc p) as [[] Hv]. exact Hv.
  - destruct (emits_or_stopped _ _ _ p (unsloth_dataset_emitted name)
                (main_disciplined w name unsloth_args)) as [Hd | Hd];
      [left | right; exact Hd].
    split; [exact Hd|].
    apply mute_collect, unsloth_no_vector_store.
  - intros Hob. pose proof (main_completes w name unsloth_args Hob) as Hc.
    split; [|split].
    + apply emits_when_completes; [apply unsloth_dataset_emitted | exact Hc].
    + apply mute_collect, unsloth_no_vector_store.
    + destruct (Hc p) as [[] Hv]. exact Hv.
Qed.

Lemma trainer_emitted name args :
  emits trainer_made (true, 1%Z) (main w name args).
Proof.
  open_script. destruct (choose_model (model args)).
  destruct (is_base (model args)); emit.
Qed.

Lemma training_emitted name args :
  emits training_run true (main w name args).
Proof.
  open_script. destruct (choose_model (model args)).
  destruct (is_base (model args)); emit.
Qed.

(** C3.  In every run of [main], whatever the mode, the one call of
    [create_SFT_trainer] is given [push_to_hub=True] and
    [num_train_epochs=1], and the one call of [train_and_save_model] is
    given [push_to_hub=True].  Either call is missing only from a run
    that an earlier action stopped by raising, and both are made in every
    run in which no call raises. *)
Theorem main_fixed_hyperparameters name args p :
  let run := main w name args p in
  (collect trainer_made (log run) = [(true, 1%Z)] \/
   collect trainer_made (log run) = [] /\ stopped run) /\
  (collect training_run (log run) = [true] \/
   collect training_run (log run) = [] /\ stopped run) /\
  (obliging w ->
   collect trainer_made (log run) = [(true, 1%Z)] /\
   collect training_run (log run) = [true] /\
   value run = Ok tt).
Proof.
  intros run. split; [|split].
  - apply emits_or_stopped; [apply trainer_emitted | apply main_disciplined].
  - apply emits_or_stopped; [apply training_emitted | apply main_disciplined].
  - intros Hob. pose proof (main_completes w name args Hob) as Hc.
    split; [|split].
    + apply emits_when_completes; [apply trainer_emitted | exact Hc].
    + apply emits_when_completes; [apply training_emitted | exact Hc].
    + destruct (Hc p) as [[] Hv]. exact Hv.
Qed.

End Selection.

(** ** Order and failure *)

Section Order.

Context {Obj : Type}.
Variable w : World Obj.

Lemma main_login_guard name args p :
  guarded login_returned (fun e => is_access (fst e)) (log (main w name args p)) = true.
Proof.
  unfold main. cbv zeta. destruct (choose_model (model args)) as [base_model load_f].
  match goal with |- context [log (bind ?m ?k p)] => bind_cases m k p end;
    rewrite Hl.
  2:{ apply guarded_free. rewrite (perform_raised _ _ _ _ E). reflexivity. }
  rewrite (perform_returned _ _ _ _ E). simpl.
  match goal with |- context [log (bind ?m ?k ?q)] => bind_cases m k q end;
    rewrite Hl0.
  - rewrite (perform_returned _ _ _ _ E0). reflexivity.
  - rewrite (perform_raised _ _ _ _ E0). reflexivity.
Qed.

(** C5.  In every run of [main], an entry of the log that loads a model
    or a dataset comes after a call of [user_login] that returned. *)
Theorem main_login_precedes_access name args p before a st after :
  log (main w name args p) = before ++ (a, st) :: after ->
  is_access a = true ->
  exists logger, In (user_login logger, Returned) before.
Proof.
  intros Hsplit Ha.
  destruct (guarded_sound _ _ _ (main_login_guard name args p) _ _ _ Hsplit Ha)
    as ([o so] & Ho & Hop).
  unfold login_returned, returned in Hop. simpl in Hop.
  destruct o; try discriminate Hop. destruct so; try discriminate Hop.
  exists logger. exact Ho.
Qed.

(** C7.  No step's failure is handled: in every run of the script, and in
    every run of [main] on its own, an action that raised is the last
    action of the run, everything before it returned, and the exception it
    raised is the outcome of the run. *)
Theorem failures_propagate inv name args p a e :
  (In (a, Raised e) (log (run_script w inv)) ->
   value (run_script w inv) = Raise e /\
   exists before,
     log (run_script w inv) = before ++ [(a, Raised e)] /\
     forallb returned before = true) /\
  (In (a, Raised e) (log (main w name args p)) ->
   value (main w name args p) = Raise e /\
   exists before,
     log (main w name args p) = before ++ [(a, Raised e)] /\
     forallb returned before = true).
Proof.
  split; intros Hin.
  - exact (faithful_raised _ _ _ _ (script_disciplined w inv (start inv)) Hin).
  - exact (faithful_raised _ _ _ _ (main_disciplined w name args p) Hin).
Qed.

End Order.

(** ** Clean-up *)

Section Cleanup.

Context {Obj : Type}.
Variable w : World Obj.
Implicit Types (l : list (entry Obj)) (kind : action Obj -> bool).

Lemma relevant_app l1 l2 : relevant (l1 ++ l2) = relevant l1 ++ relevant l2.
Proof. apply filter_app. Qed.

Lemma relevant_mute {A} (m : M Obj A) p :
  mute concerns m -> relevant (log (m p)) = [].
Proof.
  intros Hm. specialize (Hm p). unfold relevant.
  induction (log (m p)) as [| x l IH]; simpl in *; [reflexivity|].
  apply andb_prop in Hm as [Hx Hl].
  destruct (concerns (fst x)); [discriminate Hx | auto].
Qed.

Lemma ends_well_mute {A} (m : M Obj A) : mute concerns m -> ends_well m.
Proof. intros Hm p. rewrite (relevant_mute m p Hm). constructor. Qed.

Lemma ends_well_after {A B} (m : M Obj A) (k : A -> M Obj B) :
  mute concerns m -> (forall a, ends_well (k a)) -> ends_well (bind m k).
Proof.
  intros Hm Hk p.
  bind_cases m k p; rewrite Hl.
  - rewrite relevant_app, (relevant_mute m p Hm). apply Hk.
  - apply (ends_well_mute m Hm).
Qed.

Lemma log_bind_perform {A B} (ans : process Obj -> action Obj -> outcome Obj A)
    a (k : A -> M Obj B) p :
  log (bind (perform ans a) k p) =
  match ans p a with
  | Ok v =>
      (a, Returned)
        :: log (k v {| cwd := cwd p; history := history p ++ [(a, Returned)] |})
  | Raise e => [(a, Raised e)]
  end.
Proof. unfold bind, perform. destruct (ans p a); reflexivity. Qed.

Lemma log_bind_note {B} a (k : unit -> M Obj B) p :
  log (bind (note a) k p) =
  (a, Returned)
    :: log (k tt {| cwd := cwd p; history := history p ++ [(a, Returned)] |}).
Proof. reflexivity. Qed.

Lemma cleanup_report_mute logger :
  mute concerns
    (bind (perform (returns_bool w) (truth logger))
       (fun b : bool =>
          if b then info w logger (Text "Cleaned up memory post-training.")
          else ret tt)).
Proof. unfold info. quiet. Qed.

Lemma training_then_cleanup trainer new_model push logger :
  ends_well
    (bind (perform (returns_nothing w)
             (train_and_save_model trainer new_model push logger))
          (fun _ => cleanup w logger)).
Proof.
  intros p. rewrite log_bind_perform.
  destruct (returns_nothing w p _); [| simpl; constructor].
  unfold cleanup. rewrite log_bind_note, log_bind_perform.
  destruct (returns_nothing w _ gc_collect); [| simpl; constructor].
  rewrite log_bind_perform.
  destruct (returns_nothing w _ cuda_empty_cache); [| simpl; constructor].
  match goal with
  | |- training_tail (relevant (?e1 :: ?e2 :: ?e3 :: ?e4 :: log (?m ?q))) =>
      change (training_tail (relevant ([e1; e2; e3; e4] ++ log (m q))));
      rewrite relevant_app, (relevant_mute m q (cleanup_report_mute logger))
  end.
  simpl. constructor.
Qed.

Lemma main_ends_well name args : ends_well (main w name args).
Proof.
  unfold main, load_dataset, info, subscript. cbv beta zeta.
  destruct (choose_model (model args)).
  destruct (is_base (model args));
    repeat (apply ends_well_after; [solve [quiet] | intros ?; open_pairs]);
    apply training_then_cleanup.
Qed.

Lemma some_returned_relevant kind l :
  (forall a, kind a = true -> concerns a = true) ->
  some_returned kind l = some_returned kind (relevant l).
Proof.
  intros Hk. unfold some_returned, relevant.
  induction l as [| x l IH]; simpl; [reflexivity|].
  destruct (concerns (fst x)) eqn:Cx; simpl; rewrite IH; [reflexivity|].
  destruct (kind (fst x)) eqn:Kx; [|reflexivity].
  rewrite (Hk _ Kx) in Cx. discriminate Cx.
Qed.

Lemma some_raised_relevant kind l :
  (forall a, kind a = true -> concerns a = true) ->
  some_raised kind l = some_raised kind (relevant l).
Proof.
  intros Hk. unfold some_raised, relevant.
  induction l as [| x l IH]; simpl; [reflexivity|].
  destruct (concerns (fst x)) eqn:Cx; simpl; rewrite IH; [reflexivity|].
  destruct (kind (fst x)) eqn:Kx; [|reflexivity].
  rewrite (Hk _ Kx) in Cx. discriminate Cx.
Qed.

Lemma cleanup_of_relevant l : cleanup_of l = cleanup_of (relevant l).
Proof.
  unfold cleanup_of, relevant.
  induction l as [| x l IH]; simpl; [reflexivity|].
  unfold concerns at 1.
  destruct (is_cleanup (fst x)) eqn:Cx.
  - rewrite orb_true_r. simpl. rewrite Cx, IH. reflexivity.
  - rewrite orb_false_r. destruct (is_train (fst x)); simpl; rewrite ?Cx; exact IH.
Qed.

Lemma train_concerns (a : action Obj) : is_train a = true -> concerns a = true.
Proof. unfold concerns. intros ->. reflexivity. Qed.

Lemma cleanup_concerns kind :
  (forall a, kind a = true -> is_cleanup a = true) ->
  forall a : action Obj, kind a = true -> concerns a = true.
Proof. unfold concerns. intros H a Ha. rewrite (H a Ha). apply orb_true_r. Qed.

(** C6.  In every run of [main] the clean-up starts exactly when
    [train_and_save_model] returned: then the trainer is dropped, the
    collector is run and, unless the collector itself raised, the
    accelerator cache is released, in this order.  When
    [train_and_save_model] raised, and when it was not reached, nothing
    of the clean-up happens. *)
Theorem cleanup_iff_training_returned name args p :
  let l := log (main w name args p) in
  (some_returned is_del l = some_returned is_train l) /\
  (some_returned is_train l = true ->
     cleanup_of l = [del_trainer; gc_collect; cuda_empty_cache] \/
     cleanup_of l = [del_trainer; gc_collect] /\
     some_raised is_gc_collect l = true) /\
  (some_returned is_train l = false -> cleanup_of l = []) /\
  (some_raised is_train l = true ->
     some_returned is_train l = false /\ cleanup_of l = []).
Proof.
  intros l. subst l.
  rewrite (some_returned_relevant is_del), (some_returned_relevant is_train),
    (some_raised_relevant is_train), (some_raised_relevant is_gc_collect),
    cleanup_of_relevant;
    try apply train_concerns;
    try (apply cleanup_concerns; intros []; simpl; congruence).
  destruct (main_ends_well name args p); simpl;
    repeat split; intros; try discriminate; auto.
Qed.

End Cleanup.

(** ** The command line *)

Section CommandLine.

(** The scan consumes one word or two: induction over a command line may
    use the property at the tail and at the tail of the tail. *)
Lemma argv_ind2 (P : list string -> Prop) :
  P [] ->
  (forall t rest, P rest -> P (tl rest) -> P (t :: rest)) ->
  forall argv, P argv.
Proof.
  intros Hnil Hstep argv.
  enough (P argv /\ P (tl argv)) as [H _] by exact H.
  induction argv as [| t rest [IH1 IH2]]; simpl; auto.
Qed.

Lemma stored_cases v x :
  stored v = Some x ->
  v = "--" /\ x = PyEmptyList \/
  v <> "--" /\ in_choices v = true /\ x = PyStr v.
Proof.
  unfold stored. destruct (String.eqb_spec v "--") as [-> | Hne].
  - intros H. injection H as <-. left; auto.
  - destruct (in_choices v); [|discriminate].
    intros H. injection H as <-. right; auto.
Qed.



Lemma last_cons {A} (a : A) l d : last (a :: l) d = last l a.
Proof.
  revert a d. induction l as [| b l IH]; intros a d; [reflexivity|].
  change (last (a :: b :: l) d) with (last (b :: l) d).
  rewrite (IH b d), (IH b a). reflexivity.
Qed.

Lemma parse_known_mode argv :
  forall ns extras ns',
    parse_known argv ns extras = Parsed ns' ->
    model ns' = last (given argv) (model ns).
Proof.
  induction argv as [| t rest IH IH'] using argv_ind2; intros ns extras ns' H.
  - simpl in *. destruct extras; [discriminate H|].
    injection H as <-. reflexivity.
  - simpl parse_known in H. simpl given.
    destruct (classify t); try discriminate H.
    + destruct rest as [| v0 rest']; [discriminate H|].
      simpl in IH'. destruct (in_choices v0); [|discriminate H].
      rewrite last_cons. exact (IH' _ _ _ H).
    + destruct (stored v) as [x |] eqn:Sv; [|discriminate H].
      rewrite last_cons, (IH _ _ _ H). simpl.
      destruct (stored_cases v x Sv) as [[-> ->] | (Hne & _ & ->)]; [reflexivity|].
      apply String.eqb_neq in Hne. rewrite Hne. reflexivity.
    + exact (IH _ _ _ H).
Qed.

Lemma parse_known_without_model argv :
  forall ns extras ns',
    forallb (fun t => negb (model_word t)) argv = true ->
    parse_known argv ns extras = Parsed ns' ->
    argv = [] /\ extras = false /\ ns' = ns.
Proof.
  induction argv as [| t rest IH]; intros ns extras ns' Hw H.
  - simpl in H. destruct extras; [discriminate H|].
    injection H as <-. auto.
  - exfalso. simpl in Hw, H. unfold model_word in Hw.
    destruct (classify t); try discriminate H; try discriminate Hw.
    destruct (IH _ _ _ Hw H) as (_ & Hx & _). discriminate Hx.
Qed.

(** The only accepted command line without a [--model] word is the empty
    one: nothing else can be said on it. *)
Lemma accepted_without_model argv args :
  forallb (fun t => negb (model_word t)) argv = true ->
  parse_args argv = Parsed args ->
  argv = [] /\ args = {| model := PyNone |}.
Proof.
  unfold parse_args. destruct (ambiguous_word argv); [discriminate|].
  intros Hw H. destruct (parse_known_without_model _ _ _ _ Hw H) as (-> & _ & ->).
  auto.
Qed.

(** A command line that is accepted hands [main] the mode it asks for. *)
Lemma parse_args_mode argv args :
  parse_args argv = Parsed args -> model args = mode_of argv.
Proof.
  unfold parse_args, mode_of. destruct (ambiguous_word argv); [discriminate|].
  intros H. exact (parse_known_mode _ _ _ _ H).
Qed.



Lemma in_choices_cases v :
  in_choices v = true -> v = "base" \/ v = "unsloth".
Proof.
  unfold in_choices, choices. simpl.
  destruct (String.eqb_spec v "base") as [-> | _]; [auto|].
  destruct (String.eqb_spec v "unsloth") as [-> | _]; [auto|].
  discriminate.
Qed.

Lemma parse_known_holds argv :
  forall ns extras ns',
    parse_known argv ns extras = Parsed ns' ->
    model ns' = model ns \/
    model ns' = PyStr "base" \/ model ns' = PyStr "unsloth" \/
    model ns' = PyEmptyList.
Proof.
  induction argv as [| t rest IH IH'] using argv_ind2; intros ns extras ns' H.
  - simpl in H. destruct extras; [discriminate H|].
    injection H as <-. auto.
  - simpl in H. destruct (classify t); try discriminate H.
    + destruct rest as [| v rest']; [discriminate H|].
      simpl in IH'. destruct (in_choices v) eqn:Cv; [|discriminate H].
      destruct (IH' _ _ _ H) as [-> | Hc]; [|auto]. simpl.
      destruct (in_choices_cases v Cv) as [-> | ->]; auto.
    + destruct (stored v) as [x |] eqn:Sv; [|discriminate H].
      destruct (IH _ _ _ H) as [-> | Hc]; [|auto]. simpl.
      destruct (stored_cases v x Sv) as [[_ ->] | (_ & Cv & ->)]; [auto|].
      destruct (in_choices_cases v Cv) as [-> | ->]; auto.
    + exact (IH _ _ _ H).
Qed.

(** What an accepted command line can hand to [main]: one of the two
    choices, [None] when the flag is absent, or the empty list. *)
Lemma parse_args_mode_cases argv args :
  parse_args argv = Parsed args ->
  model args = PyNone \/
  model args = PyStr "base" \/ model args = PyStr "unsloth" \/
  model args = PyEmptyList.
Proof.
  unfold parse_args. destruct (ambiguous_word argv); [discriminate|].
  intros H. exact (parse_known_holds _ _ _ _ H).
Qed.

End CommandLine.

(** ** From the command line to [main] *)

Section Run.

Context {Obj : Type}.
Variable w : World Obj.

Lemma parse_accepts argv args (p : process Obj) :
  parse_args argv = Parsed args ->
  parse argv p =
  {| log := [(parse_args_of argv, Returned)]; cwd_after := cwd p; value := Ok args |}.
Proof. unfold parse. intros ->. reflexivity. Qed.

Lemma parse_exits argv st (p : process Obj) :
  parse_args argv = Exit st ->
  parse argv p =
  {| log := [(parse_args_of argv, Raised (SystemExit st))]; cwd_after := cwd p;
     value := Raise (SystemExit st) |}.
Proof. unfold parse. intros ->. reflexivity. Qed.

(** The four ways the move to the script's directory can go.  When
    [chdir] returned, the working directory is the one it led to. *)
Lemma enter_script_dir_log file (p : process Obj) :
  let home := script_dir_of w (cwd p) file in
  let notice := print ("Working directory changed to script's directory: " ++ home) in
  let r := enter_script_dir w file p in
  cwd p = home /\ log r = [] /\ value r = Ok tt /\ cwd_after r = cwd p \/
  cwd p <> home /\
  ((exists e,
      lands_in w p (chdir home) = Raise e /\
      log r = [(chdir home, Raised e)] /\ value r = Raise e) \/
   (exists d e,
      lands_in w p (chdir home) = Ok d /\
      log r = [(chdir home, Returned); (notice, Raised e)] /\ value r = Raise e) \/
   (exists d,
      lands_in w p (chdir home) = Ok d /\
      log r = [(chdir home, Returned); (notice, Returned)] /\
      value r = Ok tt /\ cwd_after r = d)).
Proof.
  destruct p as [c h]. intros home notice r. subst r notice home.
  simpl cwd. set (home := script_dir_of w c file).
  unfold enter_script_dir, getcwd, os_chdir, perform, bind.
  simpl. fold home. rewrite ?app_nil_r.
  destruct (String.eqb_spec c home) as [Heq | Hne]; simpl.
  - left. auto.
  - right. split; [exact Hne|].
    destruct (lands_in w {| cwd := c; history := h |} (chdir home)) as [d | e];
      simpl.
    + destruct (returns_nothing w _ (print _)) as [[] | e]; simpl.
      * right. right. exists d. auto.
      * right. left. exists d, e. auto.
    + left. exists e. auto.
Qed.

Lemma enter_script_dir_prelude file (p : process Obj) :
  forallb prelude (log (enter_script_dir w file p)) = true.
Proof.
  destruct (enter_script_dir_log file p)
    as [(_ & -> & _) | (_ & [(e & _ & -> & _) | [(d & e & _ & -> & _) | (d & _ & -> & _)]])];
    reflexivity.
Qed.

Lemma enter_script_dir_completes file :
  obliging w -> completes (enter_script_dir w file).
Proof. intros Hob. open_script. finishing Hob. Qed.

(** A run whose command line is refused is the refusal alone. *)
Lemma script_rejected inv st :
  name__ inv = "__main__" ->
  parse_args (argv inv) = Exit st ->
  run_script w inv =
  {| log := [(parse_args_of (argv inv), Raised (SystemExit st))];
     cwd_after := launch_dir inv;
     value := Raise (SystemExit st) |}.
Proof.
  intros Hname Ep. unfold run_script, script. rewrite Hname, String.eqb_refl.
  unfold bind. rewrite (parse_exits _ _ _ Ep). reflexivity.
Qed.

(** A run whose command line is accepted: the move to the script's
    directory, and [main] if the move returned. *)
Lemma script_accepted inv args :
  name__ inv = "__main__" ->
  parse_args (argv inv) = Parsed args ->
  let parsed := (parse_args_of (argv inv), Returned) in
  let move :=
    enter_script_dir w (file__ inv)
      {| cwd := launch_dir inv; history := [parsed] |} in
  let r := run_script w inv in
  (exists e, value move = Raise e /\ log r = parsed :: log move /\ value r = Raise e) \/
  (value move = Ok tt /\
   let q := {| cwd := cwd_after move; history := parsed :: log move |} in
   log r = history q ++ log (main w (name__ inv) args q) /\
   value r = value (main w (name__ inv) args q) /\
   cwd_after r = cwd_after (main w (name__ inv) args q)).
Proof.
  intros Hname Ep parsed move r. subst r.
  unfold run_script, script. rewrite Hname, String.eqb_refl.
  match goal with |- context [bind ?m ?k (start inv)] =>
    destruct (bind_ok m k (start inv) args) as (Hl & Hv & Hc);
      [rewrite (parse_accepts _ _ _ Ep); reflexivity|];
    rewrite Hl, Hv, Hc; clear Hl Hv Hc
  end.
  rewrite (parse_accepts _ _ _ Ep). simpl log. simpl cwd_after.
  change (history (start inv) ++ [(parse_args_of (argv inv), Returned)])
    with [parsed].
  fold parsed. fold move.
  match goal with |- context [bind ?m ?k ?q0] => bind_cases m k q0 end;
    fold move in E; fold move; rewrite Hl, Hv.
  - right. destruct a. split; [exact E|]. simpl. rewrite Hc. auto.
  - left. exists e. auto.
Qed.

Lemma collect_prelude {B} (f : action Obj -> option B) (pre : list (entry Obj)) :
  (forall a, is_prelude a = true -> f a = None) ->
  forallb prelude pre = true -> collect f pre = [].
Proof.
  intros Hf. unfold collect.
  induction pre as [| e pre IH]; simpl; [reflexivity|].
  intros H. apply andb_prop in H as [He Hpre].
  rewrite (Hf _ He). simpl. auto.
Qed.

Lemma prelude_after_parse argv (l : list (entry Obj)) :
  forallb prelude l = true ->
  forallb prelude ((parse_args_of argv, Returned) :: l) = true.
Proof. intros H. simpl. exact H. Qed.

Lemma run_stopped inv e :
  value (run_script w inv) = Raise e -> stopped (run_script w inv).
Proof.
  intros Hv. pose proof (script_disciplined w inv (start inv)) as Hd.
  fold (run_script w inv) in Hd. rewrite Hv in Hd.
  destruct Hd as (before & a & Hl & Hb). exists before, a, e. auto.
Qed.

(** What a run of the script shows of [f] is what its run of [main]
    shows, for anything the prelude does not show; it is missing only
    from a run that an action stopped by raising. *)
Lemma script_shows {B} (f : action Obj -> option B) inv args :
  (forall a, is_prelude a = true -> f a = None) ->
  name__ inv = "__main__" ->
  parse_args (argv inv) = Parsed args ->
  (forall x, emits f x (main w (name__ inv) args) ->
     collect f (log (run_script w inv)) = [x] \/
     collect f (log (run_script w inv)) = [] /\ stopped (run_script w inv)).
Proof.
  intros Hf Hname Ep x Hx.
  destruct (script_accepted inv args Hname Ep)
    as [(e & _ & Hl & Hv) | (_ & Hl & Hv & _)].
  - right. split; [|exact (run_stopped inv e Hv)].
    rewrite Hl. apply collect_prelude; [exact Hf|].
    apply prelude_after_parse, enter_script_dir_prelude.
  - cbv zeta in Hl, Hv. cbn [history] in Hl.
    match type of Hl with _ = ?pre ++ log (?m ?q) =>
      destruct (Hx q) as [Hc | [Hc [e He]]];
      rewrite Hl, collect_app,
        (collect_prelude f pre Hf
           (prelude_after_parse _ _ (enter_script_dir_prelude _ _))), Hc
    end.
    + left. reflexivity.
    + right. split; [reflexivity|].
      apply (run_stopped inv e). rewrite Hv. exact He.
Qed.

(** In a world where no call raises, an accepted run returns and shows
    what its run of [main] shows. *)
Lemma script_shows_all {B} (f : action Obj -> option B) inv args :
  (forall a, is_prelude a = true -> f a = None) ->
  name__ inv = "__main__" ->
  parse_args (argv inv) = Parsed args ->
  obliging w ->
  value (run_script w inv) = Ok tt /\
  (forall x, emits f x (main w (name__ inv) args) ->
     collect f (log (run_script w inv)) = [x]).
Proof.
  intros Hf Hname Ep Hob.
  assert (Hv : value (run_script w inv) = Ok tt).
  { destruct (script_accepted inv args Hname Ep)
      as [(e & He & _) | (_ & _ & Hv & _)].
    - destruct (enter_script_dir_completes (file__ inv) Hob
                  {| cwd := launch_dir inv;
                     history := [(parse_args_of (argv inv), Returned)] |})
        as [v Hv]. congruence.
    - rewrite Hv.
      match goal with |- value (?m ?q) = _ =>
        destruct (main_completes w (name__ inv) args Hob q) as [[] Hm]; exact Hm
      end. }
  split; [exact Hv|]. intros x Hx.
  destruct (script_shows f inv args Hf Hname Ep x Hx) as [Hc | [_ Hs]];
    [exact Hc|].
  destruct Hs as (before & a & e & _ & _ & He). congruence.
Qed.

End Run.

(** ** Whole runs of the script *)

Section WholeRuns.

Context {Obj : Type}.
Variable w : World Obj.

Lemma main_model_emitted name args :
  emits model_loaded (model_for (model args)) (main w name args).
Proof.
  open_script. unfold model_for, choose_model.
  destruct (is_base (model args)); emit.
Qed.

Lemma main_dataset_emitted name args :
  emits dataset_loaded (dataset_for (model args)) (main w name args).
Proof.
  open_script. unfold dataset_for. destruct (choose_model (model args)).
  destruct (is_base (model args)); emit.
Qed.

Lemma main_saved_emitted name args :
  emits saved_as (new_model_name (model args)) (main w name args).
Proof.
  open_script. destruct (choose_model (model args)).
  destruct (is_base (model args)); emit.
Qed.


Lemma script_shown_in {B} (f : action Obj -> option B) inv y :
  (forall a, is_prelude a = true -> f a = None) ->
  name__ inv = "__main__" ->
  In y (collect f (log (run_script w inv))) ->
  exists args,
    parse_args (argv inv) = Parsed args /\
    forall x, emits f x (main w (name__ inv) args) -> y = x.
Proof.
  intros Hf Hname Hin.
  destruct (parse_args (argv inv)) as [args | st] eqn:Ep.
  - exists args. split; [reflexivity|]. intros x Hx.
    destruct (script_shows w f inv args Hf Hname Ep x Hx) as [Hc | [Hc _]];
      rewrite Hc in Hin.
    + destruct Hin as [<- | []]. reflexivity.
    + destruct Hin.
  - rewrite (script_rejected w inv st Hname Ep) in Hin. simpl in Hin.
    rewrite (Hf (parse_args_of (argv inv)) eq_refl) in Hin. destruct Hin.
Qed.

(** C8.  The mode is what the command line gives to [--model]; it is
    handed to [main] once, and the model call and the dataset call of a
    run are both the ones of that mode: "base" loads the base model and
    the local JSON dataset, anything else ("unsloth", [None] when there
    is no flag, the empty list of [--model=--]) loads the quantized model
    and the public dataset.  No run mixes the two. *)
Theorem one_mode_decides_model_and_dataset inv lf m ds d :
  name__ inv = "__main__" ->
  In (lf, m) (collect model_loaded (log (run_script w inv))) ->
  In (ds, d) (collect dataset_loaded (log (run_script w inv))) ->
  (mode_of (argv inv) = PyStr "base" /\
   (lf, m) = (load_model_and_tokenizer, "meta-llama/Meta-Llama-3-8B-Instruct") /\
   (ds, d) = (by_load_and_process_dataset, "../data/train/mrd3_dataset.json")) \/
  ((mode_of (argv inv) = PyStr "unsloth" \/ mode_of (argv inv) = PyNone \/
    mode_of (argv inv) = PyEmptyList) /\
   (lf, m) = (load_unsloth_model_and_tokenizer, "unsloth/Meta-Llama-3.1-8B-bnb-4bit") /\
   (ds, d) = (by_load_and_prepare_unsloth_dataset, "yahma/alpaca-cleaned")).
Proof.
  intros Hname Hm Hd.
  destruct (script_shown_in model_loaded inv _ (fun a Ha => ltac:(destruct a; try discriminate Ha; reflexivity)) Hname Hm)
    as (args & Ep & Hmodel).
  destruct (script_shown_in dataset_loaded inv _ (fun a Ha => ltac:(destruct a; try discriminate Ha; reflexivity)) Hname Hd)
    as (args' & Ep' & Hdata).
  rewrite Ep in Ep'. injection Ep' as <-.
  rewrite (Hmodel _ (main_model_emitted _ args)).
  rewrite (Hdata _ (main_dataset_emitted _ args)).
  rewrite <- (parse_args_mode _ _ Ep).
  destruct (parse_args_mode_cases _ _ Ep) as [-> | [-> | [-> | ->]]].
  - right. split; [right; left; reflexivity|]. split; reflexivity.
  - left. split; [reflexivity|]. split; reflexivity.
  - right. split; [left; reflexivity|]. split; reflexivity.
  - right. split; [right; right; reflexivity|]. split; reflexivity.
Qed.

Lemma script_first_entry inv args :
  name__ inv = "__main__" ->
  parse_args (argv inv) = Parsed args ->
  exists rest, log (run_script w inv) = (parse_args_of (argv inv), Returned) :: rest.
Proof.
  intros Hname Ep.
  destruct (script_accepted w inv args Hname Ep)
    as [(e & _ & Hl & _) | (_ & Hl & _)]; rewrite Hl; simpl; eauto.
Qed.

(** C9.  A command line without [--model] (the empty one) is accepted
    with [args.model = None]; the run then goes the way of every mode
    other than "base": the quantized model with the unsloth loader, the
    public dataset, and the model is saved as
    "stf-None-Llama-3-8B-Instruct".  Each of the three calls is missing
    only from a run that an earlier action stopped by raising, and all
    three are made, and the run returns, when no call raises. *)
Theorem omitted_model_takes_unsloth_path inv :
  name__ inv = "__main__" ->
  argv inv = [] ->
  let r := run_script w inv in
  let unsloth_call :=
    (load_unsloth_model_and_tokenizer, "unsloth/Meta-Llama-3.1-8B-bnb-4bit") in
  let public_dataset := (by_load_and_prepare_unsloth_dataset, "yahma/alpaca-cleaned") in
  parse_args (argv inv) = Parsed {| model := PyNone |} /\
  (exists rest, log r = (parse_args_of [], Returned) :: rest) /\
  (collect model_loaded (log r) = [unsloth_call] \/
   collect model_loaded (log r) = [] /\ stopped r) /\
  (collect dataset_loaded (log r) = [public_dataset] \/
   collect dataset_loaded (log r) = [] /\ stopped r) /\
  (collect saved_as (log r) = ["stf-None-Llama-3-8B-Instruct"] \/
   collect saved_as (log r) = [] /\ stopped r) /\
  (obliging w ->
   collect model_loaded (log r) = [unsloth_call] /\
   collect dataset_loaded (log r) = [public_dataset] /\
   collect saved_as (log r) = ["stf-None-Llama-3-8B-Instruct"] /\
   value r = Ok tt).
Proof.
  intros Hname Hargv r unsloth_call public_dataset.
  subst r unsloth_call public_dataset.
  assert (Ep : parse_args (argv inv) = Parsed {| model := PyNone |})
    by (rewrite Hargv; reflexivity).
  assert (Hm : forall a : action Obj, is_prelude a = true -> model_loaded a = None)
    by (intros a Ha; destruct a; try discriminate Ha; reflexivity).
  assert (Hd : forall a : action Obj, is_prelude a = true -> dataset_loaded a = None)
    by (intros a Ha; destruct a; try discriminate Ha; reflexivity).
  assert (Hs : forall a : action Obj, is_prelude a = true -> saved_as a = None)
    by (intros a Ha; destruct a; try discriminate Ha; reflexivity).
  pose proof (main_model_emitted (name__ inv) {| model := PyNone |}) as Em.
  pose proof (main_dataset_emitted (name__ inv) {| model := PyNone |}) as Ed.
  pose proof (main_saved_emitted (name__ inv) {| model := PyNone |}) as Es.
  split; [exact Ep|]. split.
  { rewrite <- Hargv. exact (script_first_entry inv _ Hname Ep). }
  split; [|split; [|split]].
  - exact (script_shows w model_loaded inv _ Hm Hname Ep _ Em).
  - exact (script_shows w dataset_loaded inv _ Hd Hname Ep _ Ed).
  - exact (script_shows w saved_as inv _ Hs Hname Ep _ Es).
  - intros Hob.
    destruct (script_shows_all w model_loaded inv _ Hm Hname Ep Hob) as [Hv Hcm].
    destruct (script_shows_all w dataset_loaded inv _ Hd Hname Ep Hob) as [_ Hcd].
    destruct (script_shows_all w saved_as inv _ Hs Hname Ep Hob) as [_ Hcs].
    split; [exact (Hcm _ Em)|]. split; [exact (Hcd _ Ed)|].
    split; [exact (Hcs _ Es) | exact Hv].
Qed.


End WholeRuns.

(** ** A value outside the choices that is accepted *)


(** ** The theorems at work on sample runs *)

Section Witnesses.

Import Sample.

Lemma calm_is_obliging : obliging calm.
Proof. intros p a e. repeat split; try discriminate. destruct a; discriminate. Qed.

Lemma selects_model_witness :
  collect model_loaded (log (main calm "__main__" base_args fresh))
    = [(load_model_and_tokenizer, "meta-llama/Meta-Llama-3-8B-Instruct")] /\
  value (main calm "__main__" base_args fresh) = Ok tt.
Proof.
  apply (proj1 (proj2 (main_selects_model_and_loader calm "__main__" fresh))).
  exact calm_is_obliging.
Defined.

Lemma selects_dataset_witness :
  collect dataset_loaded (log (main calm "__main__" base_args fresh))
    = [(by_load_and_process_dataset, "../data/train/mrd3_dataset.json")] /\
  collect vector_store (log (main calm "__main__" base_args fresh))
    = [("sentence-transformers/all-mpnet-base-v2", "../chroma_db")] /\
  value (main calm "__main__" base_args fresh) = Ok tt.
Proof.
  apply (proj1 (proj2 (proj2 (main_selects_dataset calm "__main__" fresh)))).
  exact calm_is_obliging.
Defined.

Lemma fixed_hyperparameters_witness :
  collect trainer_made (log (main calm "__main__" unsloth_args fresh)) = [(true, 1%Z)] /\
  collect training_run (log (main calm "__main__" unsloth_args fresh)) = [true] /\
  value (main calm "__main__" unsloth_args fresh) = Ok tt.
Proof.
  apply (proj2 (proj2 (main_fixed_hyperparameters calm "__main__" unsloth_args fresh))).
  exact calm_is_obliging.
Defined.

Lemma login_precedes_access_witness :
  exists logger : nat, In (user_login logger, Returned) (firstn 3 base_log).
Proof.
  apply (main_login_precedes_access calm "__main__" base_args fresh
           (firstn 3 base_log)
           (load_func load_model_and_tokenizer
              "meta-llama/Meta-Llama-3-8B-Instruct" 100%nat)
           Returned
           (skipn 4 base_log)).
  - vm_compute. reflexivity.
  - reflexivity.
Defined.

Lemma cleanup_after_training_witness :
  cleanup_of base_log = [del_trainer; gc_collect; cuda_empty_cache] \/
  cleanup_of base_log = [del_trainer; gc_collect] /\
  some_raised is_gc_collect base_log = true.
Proof.
  apply (proj1 (proj2
           (cleanup_iff_training_returned calm "__main__" base_args fresh))).
  vm_compute. reflexivity.
Defined.

Lemma failed_login_propagates_witness :
  value (run_script no_login base_from_home) = Raise (PyError 13%nat) /\
  exists before,
    log (run_script no_login base_from_home)
      = before ++ [(user_login 103%nat, Raised (PyError 13%nat))] /\
    forallb returned before = true.
Proof.
  apply (proj1 (failures_propagate no_login base_from_home "__main__" base_args
                  fresh (user_login 103%nat) (PyError 13%nat))).
  vm_compute. do 4 right. left. reflexivity.
Defined.

Lemma one_mode_witness :
  (mode_of (argv base_from_home) = PyStr "base" /\
   (load_model_and_tokenizer, "meta-llama/Meta-Llama-3-8B-Instruct")
     = (load_model_and_tokenizer, "meta-llama/Meta-Llama-3-8B-Instruct") /\
   (by_load_and_process_dataset, "../data/train/mrd3_dataset.json")
     = (by_load_and_process_dataset, "../data/train/mrd3_dataset.json")) \/
  ((mode_of (argv base_from_home) = PyStr "unsloth" \/
    mode_of (argv base_from_home) = PyNone \/
    mode_of (argv base_from_home) = PyEmptyList) /\
   (load_model_and_tokenizer, "meta-llama/Meta-Llama-3-8B-Instruct")
     = (load_unsloth_model_and_tokenizer, "unsloth/Meta-Llama-3.1-8B-bnb-4bit") /\
   (by_load_and_process_dataset, "../data/train/mrd3_dataset.json")
     = (by_load_and_prepare_unsloth_dataset, "yahma/alpaca-cleaned")).
Proof.
  apply (one_mode_decides_model_and_dataset calm base_from_home).
  - reflexivity.
  - vm_compute. left. reflexivity.
  - vm_compute. left. reflexivity.
Defined.

Lemma omitted_model_witness :
  let r := run_script calm bare in
  let unsloth_call :=
    (load_unsloth_model_and_tokenizer, "unsloth/Meta-Llama-3.1-8B-bnb-4bit") in
  let public_dataset := (by_load_and_prepare_unsloth_dataset, "yahma/alpaca-cleaned") in
  parse_args (argv bare) = Parsed {| model := PyNone |} /\
  (exists rest, log r = (parse_args_of [], Returned) :: rest) /\
  (collect model_loaded (log r) = [unsloth_call] \/
   collect model_loaded (log r) = [] /\ stopped r) /\
  (collect dataset_loaded (log r) = [public_dataset] \/
   collect dataset_loaded (log r) = [] /\ stopped r) /\
  (collect saved_as (log r) = ["stf-None-Llama-3-8B-Instruct"] \/
   collect saved_as (log r) = [] /\ stopped r) /\
  (obliging calm ->
   collect model_loaded (log r) = [unsloth_call] /\
   collect dataset_loaded (log r) = [public_dataset] /\
   collect saved_as (log r) = ["stf-None-Llama-3-8B-Instruct"] /\
   value r = Ok tt).
Proof.
  apply (omitted_model_takes_unsloth_path calm bare).
  - reflexivity.
  - reflexivity.
Defined.


End Witnesses.

(** The sample runs, in full. *)

Example calm_base_run_selects :
  collect model_loaded (log (run_script Sample.calm Sample.base_from_home))
    = [(load_model_and_tokenizer, "meta-llama/Meta-Llama-3-8B-Instruct")] /\
  collect dataset_loaded (log (run_script Sample.calm Sample.base_from_home))
    = [(by_load_and_process_dataset, "../data/train/mrd3_dataset.json")] /\
  collect trainer_made (log (run_script Sample.calm Sample.base_from_home))
    = [(true, 1%Z)] /\
  cwd_after (run_script Sample.calm Sample.base_from_home) = "/srv/app/script" /\
  value (run_script Sample.calm Sample.base_from_home) = Ok tt.
Proof. vm_compute. repeat split. Qed.

Example linked_run_lands_where_the_link_leads :
  script_dir_of Sample.linked "/home/user" "/srv/app/script/main.py" = "/srv/app/script" /\
  cwd_after (run_script Sample.linked Sample.base_from_home) = "/mnt/disk/app/script" /\
  value (run_script Sample.linked Sample.base_from_home) = Ok tt.
Proof. vm_compute. repeat split. Qed.

Example failed_training_skips_cleanup :
  cleanup_of (log (run_script Sample.no_training Sample.unsloth_in_place)) = [] /\
  value (run_script Sample.no_training Sample.unsloth_in_place)
    = Raise (PyError 13%nat).
Proof. vm_compute. split; reflexivity. Qed.


(** * Further properties of the command line *)

Section CommandLineMore.

Lemma split_explicit_none t name :
  split_explicit t = (name, None) -> name = t.
Proof.
  revert name. induction t as [| c t IH]; intros name H; simpl in H.
  - injection H as <-. reflexivity.
  - destruct (Ascii.eqb c "="); [discriminate H|].
    destruct (split_explicit t) as [n e]. injection H as <- ->.
    rewrite (IH n eq_refl). reflexivity.
Qed.

Lemma prefix_of_model t :
  String.prefix t "--model" = true ->
  In t [""; "-"; "--"; "--m"; "--mo"; "--mod"; "--mode"; "--model"].
Proof.
  intros H. apply String.prefix_correct in H.
  remember (String.length t) as n eqn:Hn.
  do 8 (destruct n as [| n]; [simpl in H; subst t; simpl; tauto|]).
  exfalso. simpl in H. subst t. discriminate Hn.
Qed.

(** X3.  The words that stand for the flag [--model], its value being
    the next word, are exactly [--model] and its abbreviations down to
    [--m]. *)
Theorem model_flag_is_an_abbreviation t :
  classify t = ModelFlag <-> In t model_flag_spellings.
Proof.
  split.
  - unfold classify. intros H.
    destruct (t =? "--"); [discriminate H|].
    destruct (String.prefix "--" t) eqn:Hp.
    + destruct (split_explicit t) as [name explicit] eqn:Hs.
      destruct (name =? "--") eqn:Hn; [discriminate H|].
      destruct (String.prefix name "--help"); [destruct explicit; discriminate H|].
      destruct (String.prefix name "--model") eqn:Hm; [|discriminate H].
      destruct explicit; [discriminate H|].
      apply split_explicit_none in Hs. subst name.
      apply prefix_of_model in Hm. unfold model_flag_spellings.
      simpl in Hm |- *.
      destruct Hm as [<- | [<- | [<- | Hm]]]; try discriminate Hp; try discriminate Hn.
      tauto.
    + destruct (String.prefix "-h" t); [|discriminate H].
      destruct (t =? "-h"); [discriminate H|]. cbv zeta in H.
      match type of H with (if ?c then _ else _) = _ => destruct c end;
        discriminate H.
  - unfold model_flag_spellings. simpl.
    intros [<- | [<- | [<- | [<- | [<- | []]]]]]; reflexivity.
Qed.








End CommandLineMore.

Section CommandLineSpellings.

Lemma split_explicit_some t name v :
  split_explicit t = (name, Some v) -> t = (name ++ "=" ++ v)%string.
Proof.
  revert name. induction t as [| c t IH]; intros name H; simpl in H.
  - discriminate H.
  - destruct (Ascii.eqb_spec c "=") as [-> | _].
    + injection H as <- <-. reflexivity.
    + destruct (split_explicit t) as [n e]. injection H as <- ->.
      simpl. rewrite (IH n eq_refl). reflexivity.
Qed.

(** X4.  The one-word form of the option is a spelling of the flag, an
    equals sign and the value: [--model=v], [--mo=v], ...; the value is
    everything after the first equals sign. *)
Theorem model_value_is_flag_equals_value t v :
  classify t = ModelValue v <->
  exists f, In f model_flag_spellings /\ t = (f ++ "=" ++ v)%string.
Proof.
  split.
  - unfold classify. intros H.
    destruct (t =? "--"); [discriminate H|].
    destruct (String.prefix "--" t) eqn:Hp.
    + destruct (split_explicit t) as [name explicit] eqn:Hs.
      destruct (name =? "--") eqn:Hn; [discriminate H|].
      destruct (String.prefix name "--help"); [destruct explicit; discriminate H|].
      destruct (String.prefix name "--model") eqn:Hm; [|discriminate H].
      destruct explicit as [v' |]; [|discriminate H].
      injection H as ->.
      apply split_explicit_some in Hs. subst t.
      apply prefix_of_model in Hm. exists name. split; [|reflexivity].
      unfold model_flag_spellings. simpl in Hm |- *.
      destruct Hm as [<- | [<- | [<- | Hm]]]; try discriminate Hp; try discriminate Hn.
      tauto.
    + destruct (String.prefix "-h" t); [|discriminate H].
      destruct (t =? "-h"); [discriminate H|]. cbv zeta in H.
      match type of H with (if ?c then _ else _) = _ => destruct c end;
        discriminate H.
  - intros (f & Hf & ->). unfold model_flag_spellings in Hf. simpl in Hf.
    destruct Hf as [<- | [<- | [<- | [<- | [<- | []]]]]]; reflexivity.
Qed.

End CommandLineSpellings.

Section Rejection.

Context {Obj : Type}.
Variable w : World Obj.




End Rejection.

(** * Further properties of [main] *)

Section MoreRules.

Context {Obj : Type}.
Implicit Types (p : process Obj) (l : list (entry Obj)).

Lemma all_ret {A} P (a : A) : all_actions P (@ret Obj A a).
Proof. intro p. constructor. Qed.

Lemma all_note (P : action Obj -> Prop) a : P a -> all_actions P (note a).
Proof. intros Ha p. repeat constructor. exact Ha. Qed.

Lemma all_perform {A} (P : action Obj -> Prop)
    (ans : process Obj -> action Obj -> outcome Obj A) a :
  P a -> all_actions P (perform ans a).
Proof.
  intros Ha p. unfold perform.
  destruct (ans p a); repeat constructor; exact Ha.
Qed.

Lemma all_bind {A B} P (m : M Obj A) (k : A -> M Obj B) :
  all_actions P m -> (forall a, all_actions P (k a)) -> all_actions P (bind m k).
Proof.
  intros Hm Hk p.
  bind_cases m k p; rewrite Hl.
  - apply Forall_app. split; [apply Hm | apply Hk].
  - apply Hm.
Qed.

(** What follows a call may rely on what the call returned. *)
Lemma all_bind_answer {A B} (P : action Obj -> Prop)
    (ans : process Obj -> action Obj -> outcome Obj A) a (k : A -> M Obj B) :
  P a ->
  (forall p v, ans p a = Ok v -> all_actions P (k v)) ->
  all_actions P (bind (perform ans a) k).
Proof.
  intros Ha Hk p. rewrite log_bind_perform.
  destruct (ans p a) as [v | e] eqn:E.
  - constructor; [exact Ha | apply (Hk p v E)].
  - repeat constructor. exact Ha.
Qed.

Lemma all_in {A} (P : action Obj -> Prop) (m : M Obj A) p a st :
  all_actions P m -> In (a, st) (log (m p)) -> P a.
Proof.
  intros Hm Hin. specialize (Hm p). rewrite Forall_forall in Hm.
  exact (Hm _ Hin).
Qed.

(** *** Order *)

Lemma guarded_behind opens needs l1 l2 :
  forallb (fun e => negb (needs e)) l1 = true ->
  guarded opens needs l2 = true ->
  guarded opens needs (l1 ++ l2) = true.
Proof.
  induction l1 as [| x rest IH]; simpl; [auto|].
  intros H G. apply andb_prop in H as [Hx Hrest].
  destruct (needs x); [discriminate Hx|].
  destruct (opens x); auto.
Qed.

Lemma guarded_opened opens needs l1 l2 :
  forallb (fun e => negb (needs e)) l1 = true ->
  existsb opens l1 = true ->
  guarded opens needs (l1 ++ l2) = true.
Proof.
  induction l1 as [| x rest IH]; simpl; [discriminate|].
  intros H E. apply andb_prop in H as [Hx Hrest].
  destruct (needs x); [discriminate Hx|].
  destruct (opens x); [reflexivity|]. simpl in E. auto.
Qed.

Lemma in_order_after {A B} opens needs (m : M Obj A) (k : A -> M Obj B) :
  mute needs m -> (forall a, in_order opens needs (k a)) ->
  in_order opens needs (bind m k).
Proof.
  intros Hm Hk p.
  bind_cases m k p; rewrite Hl.
  - apply guarded_behind; [apply Hm | apply Hk].
  - apply guarded_free. apply Hm.
Qed.

Lemma in_order_opened {A B} opens needs (m : M Obj A) (k : A -> M Obj B) :
  opens_on_return opens needs m -> in_order opens needs (bind m k).
Proof.
  intros Hm p. destruct (Hm p) as [Hfree Hopen].
  bind_cases m k p; rewrite Hl.
  - apply guarded_opened; [exact Hfree | exact (Hopen _ eq_refl)].
  - apply guarded_free. exact Hfree.
Qed.

Lemma opens_perform {A} (opens : entry Obj -> bool) needs
    (ans : process Obj -> action Obj -> outcome Obj A) a :
  needs a = false -> opens (a, Returned) = true ->
  opens_on_return opens needs (perform ans a).
Proof.
  intros Hn Ho p. unfold perform.
  destruct (ans p a); simpl; rewrite Hn; split; try reflexivity.
  - intros _ _. rewrite Ho. reflexivity.
  - intros v H. discriminate H.
Qed.

Lemma opens_after {A B} opens needs (m : M Obj A) (k : A -> M Obj B) :
  mute needs m -> (forall a, opens_on_return opens needs (k a)) ->
  opens_on_return opens needs (bind m k).
Proof.
  intros Hm Hk p.
  bind_cases m k p; rewrite Hl, Hv.
  - destruct (Hk a {| cwd := cwd_after (m p); history := history p ++ log (m p) |})
      as [Hfree Hopen].
    split.
    + rewrite forallb_app. apply andb_true_intro. split; [apply Hm | exact Hfree].
    + intros v Hval. rewrite existsb_app, (Hopen v Hval). apply orb_true_r.
  - split; [apply Hm | intros v H; discriminate H].
Qed.

Lemma opens_then {A B} opens needs (m : M Obj A) (k : A -> M Obj B) :
  opens_on_return opens needs m -> (forall a, mute needs (k a)) ->
  opens_on_return opens needs (bind m k).
Proof.
  intros Hm Hk p. destruct (Hm p) as [Hfree Hopen].
  bind_cases m k p; rewrite Hl, Hv.
  - split.
    + rewrite forallb_app. apply andb_true_intro. split; [exact Hfree | apply Hk].
    + intros v Hval. rewrite existsb_app, (Hopen _ eq_refl). reflexivity.
  - split; [exact Hfree | intros v H; discriminate H].
Qed.

End MoreRules.

(** [opening]: the piece of code performs the opening call and nothing
    that needs it; [ordered]: the opening call comes first. *)
Ltac opening :=
  first
    [ apply opens_perform; reflexivity
    | apply opens_then; [ opening | intros ?; open_pairs; solve [quiet] ]
    | apply opens_after; [ solve [quiet] | intros ?; open_pairs; opening ] ].

Ltac ordered :=
  first
    [ apply in_order_opened; solve [opening]
    | apply in_order_after; [ solve [quiet] | intros ?; open_pairs; ordered ] ].

Ltac uniform tac :=
  repeat first
    [ apply all_ret
    | apply all_note; solve [tac]
    | apply all_perform; solve [tac]
    | apply all_bind; [ | intros ?; open_pairs ]
    | branch ].

Section Pipeline_order.

Context {Obj : Type}.
Variable w : World Obj.

Lemma dataset_after_model name args :
  in_order (returned_of (shows model_loaded)) (shows dataset_loaded)
    (main w name args).
Proof.
  open_script. destruct (choose_model (model args)).
  destruct (is_base (model args)); ordered.
Qed.

Lemma factory_after_dataset name args :
  in_order (returned_of (shows dataset_loaded)) (shows trainer_made)
    (main w name args).
Proof.
  open_script. destruct (choose_model (model args)).
  destruct (is_base (model args)); ordered.
Qed.

Lemma training_after_factory name args :
  in_order (returned_of (shows trainer_made)) is_train (main w name args).
Proof.
  open_script. destruct (choose_model (model args)).
  destruct (is_base (model args)); ordered.
Qed.

Lemma in_order_sound {A} opens needs (m : M Obj A) p before a st after :
  in_order opens needs m ->
  log (m p) = before ++ (a, st) :: after ->
  needs a = true ->
  existsb opens before = true.
Proof.
  intros Hm Hsplit Ha.
  destruct (guarded_sound _ _ _ (Hm p) _ _ _ Hsplit Ha) as (o & Ho & Hop).
  apply existsb_exists. exists o. split; assumption.
Qed.

(** X5.  The steps of [main] come in one order and each waits for the
    one before: a dataset is loaded only after the model loader returned,
    the trainer is built only after the dataset function returned, and
    training starts only after the trainer factory returned. *)
Theorem pipeline_steps_in_order name args p before a st after :
  log (main w name args p) = before ++ (a, st) :: after ->
  (shows dataset_loaded a = true ->
     existsb (returned_of (shows model_loaded)) before = true) /\
  (shows trainer_made a = true ->
     existsb (returned_of (shows dataset_loaded)) before = true) /\
  (is_train a = true ->
     existsb (returned_of (shows trainer_made)) before = true).
Proof.
  intros Hsplit. repeat split; intros Ha.
  - exact (in_order_sound _ _ _ _ _ _ _ _ (dataset_after_model name args) Hsplit Ha).
  - exact (in_order_sound _ _ _ _ _ _ _ _ (factory_after_dataset name args) Hsplit Ha).
  - exact (in_order_sound _ _ _ _ _ _ _ _ (training_after_factory name args) Hsplit Ha).
Qed.

End Pipeline_order.

(** * Where the objects come from *)

Ltac plain := simpl; intros; first [discriminate | congruence | exact I].

Section Dataflow.

Context {Obj : Type}.
Variable w : World Obj.

Lemma all_bind_value {A B} (P : action Obj -> Prop) (m : M Obj A) (k : A -> M Obj B) :
  all_actions P m ->
  (forall p v, value (m p) = Ok v -> all_actions P (k v)) ->
  all_actions P (bind m k).
Proof.
  intros Hm Hk p.
  bind_cases m k p; rewrite Hl.
  - apply Forall_app. split; [apply Hm | apply (Hk p a E)].
  - apply Hm.
Qed.

(** What follows a call may rely on what the call returned, in the
    process it was made in. *)
Lemma answer_then {A B} (P : action Obj -> Prop)
    (ans : process Obj -> action Obj -> outcome Obj A) a (k : A -> M Obj B) p :
  P a ->
  (forall v, ans p a = Ok v -> all_actions P (k v)) ->
  Forall (fun e => P (fst e)) (log (bind (perform ans a) k p)).
Proof.
  intros Ha Hk. rewrite log_bind_perform.
  destruct (ans p a) as [v | e] eqn:E.
  - constructor; [exact Ha | apply (Hk v eq_refl)].
  - repeat constructor. exact Ha.
Qed.

(** X6.  One logger serves the whole run: every call of [main] that is
    given a logger is given the object that [CustomLogger(__name__,
    level=logging.DEBUG)] returned at the start. *)
Theorem logger_is_the_one_made name args p a st l :
  In (a, st) (log (main w name args p)) ->
  logger_of a = Some l ->
  returns_object w p (CustomLogger name DEBUG) = Ok l.
Proof.
  intros Hin Hl.
  pose (P := fun a : action Obj =>
               forall l, logger_of a = Some l ->
                         returns_object w p (CustomLogger name DEBUG) = Ok l).
  assert (F : Forall (fun e => P (fst e)) (log (main w name args p))).
  { open_script. destruct (choose_model (model args)).
    apply answer_then; [subst P; plain|].
    intros logger E. subst P.
    destruct (is_base (model args));
      uniform ltac:(simpl; intros ? H;
                    first [discriminate H | injection H as <-; exact E]). }
  rewrite Forall_forall in F. exact (F _ Hin l Hl).
Qed.

(** One statement of [main] that has nothing to do with [P]. *)
Ltac pass tac := apply all_bind; [ solve [uniform tac] | intros ?; open_pairs ].

(** X7.  The trainer is built from what the loader of the mode returned:
    the model, the tokenizer and the adapter configuration given to
    [create_SFT_trainer] are the three values of one answer of
    [load_func], and the tokenizer given to the dataset function is the
    tokenizer of that answer. *)
Theorem trainer_built_from_what_was_loaded name args p a st :
  In (a, st) (log (main w name args p)) ->
  (forall x, built_from a = Some x ->
     exists q logger,
       returns_triple w q
         (load_func (fst (model_for (model args))) (snd (model_for (model args)))
            logger) = Ok x) /\
  (forall t, tokenizer_of a = Some t ->
     exists q logger m c,
       returns_triple w q
         (load_func (fst (model_for (model args))) (snd (model_for (model args)))
            logger) = Ok (m, t, c)).
Proof.
  intros Hin.
  pattern a.
  match goal with
  | |- ?P a => refine (all_in P (main w name args) p a st _ Hin)
  end.
  open_script. unfold choose_model, model_for.
  destruct (is_base (model args)); cbv beta iota; simpl fst; simpl snd.
  all: do 3 pass ltac:(simpl; split; intros; discriminate).
  all: apply all_bind_answer; [simpl; split; intros; discriminate|].
  all: intros q [[m t] c] E; cbv beta iota.
  all: uniform ltac:(simpl; split; intros ? H;
                     first [ discriminate H
                           | injection H as <-; repeat eexists; exact E ]).
Qed.

Lemma load_dataset_value model_type tokenizer embedding db logger p ds :
  value (load_dataset w model_type tokenizer embedding db logger p) = Ok ds ->
  (is_base model_type = true /\
   exists q x,
     returns_pair w q
       (load_and_process_dataset tokenizer "../data/train/mrd3_dataset.json"
          embedding db logger) = Ok (ds, x)) \/
  (is_base model_type = false /\
   exists q,
     returns_object w q
       (load_and_prepare_unsloth_dataset tokenizer "yahma/alpaca-cleaned" logger)
     = Ok ds).
Proof.
  unfold load_dataset, info.
  destruct (is_base model_type).
  - match goal with |- context [bind ?m ?k p] => bind_cases m k p end;
      rewrite Hv; [|discriminate].
    match goal with |- context [bind ?m ?k ?q] => bind_cases m k q end;
      rewrite Hv0; [|discriminate].
    destruct a0 as [d x]. intros H. injection H as <-.
    unfold perform in E0.
    match type of E0 with
    | context [returns_pair w ?q ?act] =>
        left; split; [reflexivity|]; exists q, x;
        change (returns_pair w q act = Ok (d, x));
        destruct (returns_pair w q act); [|discriminate E0];
        injection E0 as ->; reflexivity
    end.
  - match goal with |- context [bind ?m ?k p] => bind_cases m k p end;
      rewrite Hv; [|discriminate].
    unfold perform.
    match goal with
    | |- context [returns_object w ?q ?act] =>
        intros H; right; split; [reflexivity|]; exists q;
        destruct (returns_object w q act); [|discriminate H];
        injection H as ->; reflexivity
    end.
Qed.

(** X8.  The trainer is given the "train_demo" and the "eval_demo" split
    of one dataset, and that dataset is what the dataset function of the
    mode returned: in mode "base" the first of the two values of
    [load_and_process_dataset] on "../data/train/mrd3_dataset.json",
    with the embedding model and the vector store directory of the
    script; otherwise the value of [load_and_prepare_unsloth_dataset] on
    "yahma/alpaca-cleaned". *)
Theorem trainer_given_the_splits_of_the_dataset name args p a st tr ev :
  In (a, st) (log (main w name args p)) ->
  splits_of a = Some (tr, ev) ->
  exists ds,
    (exists q, returns_object w q (getitem ds (KStr "train_demo")) = Ok tr) /\
    (exists q, returns_object w q (getitem ds (KStr "eval_demo")) = Ok ev) /\
    (is_base (model args) = true /\
     (exists q tokenizer logger x,
        returns_pair w q
          (load_and_process_dataset tokenizer "../data/train/mrd3_dataset.json"
             "sentence-transformers/all-mpnet-base-v2" "../chroma_db" logger)
        = Ok (ds, x)) \/
     is_base (model args) = false /\
     (exists q tokenizer logger,
        returns_object w q
          (load_and_prepare_unsloth_dataset tokenizer "yahma/alpaca-cleaned" logger)
        = Ok ds)).
Proof.
  intros Hin. revert tr ev.
  pattern a.
  match goal with
  | |- ?P a => refine (all_in P (main w name args) p a st _ Hin)
  end.
  unfold main, cleanup, info, subscript. cbv beta zeta.
  destruct (choose_model (model args)).
  do 4 pass plain.
  apply all_bind_value;
    [unfold load_dataset, info; destruct (is_base (model args)); uniform plain|].
  intros q ds Eds. apply load_dataset_value in Eds.
  assert (Hds :
    is_base (model args) = true /\
    (exists q tokenizer logger x,
       returns_pair w q
         (load_and_process_dataset tokenizer "../data/train/mrd3_dataset.json"
            "sentence-transformers/all-mpnet-base-v2" "../chroma_db" logger)
       = Ok (ds, x)) \/
    is_base (model args) = false /\
    (exists q tokenizer logger,
       returns_object w q
         (load_and_prepare_unsloth_dataset tokenizer "yahma/alpaca-cleaned" logger)
       = Ok ds)).
  { destruct Eds as [[Hb (q' & x & Hx)] | [Hb (q' & Hx)]].
    - left. split; [exact Hb|]. eexists q', _, _, x. exact Hx.
    - right. split; [exact Hb|]. eexists q', _, _. exact Hx. }
  clear Eds.
  do 6 pass plain.
  apply all_bind_answer; [plain|]. intros q1 train_demo E1.
  apply all_bind_answer; [plain|]. intros q2 eval_demo E2.
  uniform ltac:(simpl; intros ? ? H;
                first [ discriminate H
                      | injection H as <- <-; exists ds; eauto ]).
Qed.

(** X9.  The trainer that is trained and saved is the object
    [create_SFT_trainer] returned. *)
Theorem trained_is_the_trainer_built name args p a st t :
  In (a, st) (log (main w name args p)) ->
  trained a = Some t ->
  exists q c, is_factory c = true /\ returns_object w q c = Ok t.
Proof.
  intros Hin. revert t.
  pattern a.
  match goal with
  | |- ?P a => refine (all_in P (main w name args) p a st _ Hin)
  end.
  open_script. destruct (choose_model (model args)).
  destruct (is_base (model args)).
  all: do 13 pass plain.
  all: apply all_bind_answer; [plain|].
  all: intros q trainer E.
  all: uniform ltac:(simpl; intros ? H;
                     first [ discriminate H
                           | injection H as <-; eexists _, _; split;
                             [|exact E]; reflexivity ]).
Qed.

End Dataflow.

(** * The end of the run, the other modes, the start of the run *)

Section Ends.

Context {Obj : Type}.
Variable w : World Obj.

Lemma not_reported {A} (m : M Obj A) p :
  mute is_report m -> reports (log (m p)) = false.
Proof.
  intros Hm. specialize (Hm p). unfold reports.
  induction (log (m p)) as [| x l IH]; simpl in *; [reflexivity|].
  apply andb_prop in Hm as [Hx Hl].
  destruct (is_report (fst x)); [discriminate Hx | auto].
Qed.

Lemma reports_well_after {A B} (m : M Obj A) (k : A -> M Obj B) :
  mute is_report m -> mute concerns m ->
  (forall a, reports_well (k a)) -> reports_well (bind m k).
Proof.
  intros Hr Hc Hk p.
  bind_cases m k p; rewrite Hl.
  - intros H. unfold reports in H. rewrite existsb_app in H.
    apply orb_prop in H as [H | H].
    + exfalso. change (reports (log (m p)) = true) in H.
      rewrite (not_reported m p Hr) in H. discriminate H.
    + unfold released. rewrite relevant_app, (relevant_mute m p Hc). simpl.
      apply Hk. exact H.
  - rewrite (not_reported m p Hr). discriminate.
Qed.

Lemma training_then_cleanup_reports_well trainer new_model push logger :
  reports_well
    (bind (perform (returns_nothing w)
             (train_and_save_model trainer new_model push logger))
          (fun _ => cleanup w logger)).
Proof.
  intros p. rewrite log_bind_perform.
  destruct (returns_nothing w p _); [| discriminate].
  unfold cleanup. rewrite log_bind_note, log_bind_perform.
  destruct (returns_nothing w _ gc_collect); [| discriminate].
  rewrite log_bind_perform.
  destruct (returns_nothing w _ cuda_empty_cache); [| discriminate].
  intros _. unfold released.
  match goal with
  | |- context [log (?m ?q)] =>
      pose proof (relevant_mute m q (cleanup_report_mute w logger)) as Hrest
  end.
  unfold relevant in *. cbn [filter fst concerns is_train is_cleanup orb].
  rewrite Hrest. eauto.
Qed.

Lemma main_reports_well name args : reports_well (main w name args).
Proof.
  unfold main, load_dataset, info, subscript. cbv beta zeta.
  destruct (choose_model (model args)).
  destruct (is_base (model args));
    repeat (apply reports_well_after;
            [solve [quiet] | solve [quiet] | intros ?; open_pairs]);
    apply training_then_cleanup_reports_well.
Qed.

(** X10.  The line "Cleaned up memory post-training." is logged only at
    the end of a complete clean-up: when it is in the log, training
    returned, the trainer was dropped, and both the collector and the
    cache release returned. *)
Theorem report_means_memory_was_released name args p logger st :
  In (logger_info logger (Text "Cleaned up memory post-training."), st)
     (log (main w name args p)) ->
  exists t n b lg,
    relevant (log (main w name args p)) =
    [(train_and_save_model t n b lg, Returned); (del_trainer, Returned);
     (gc_collect, Returned); (cuda_empty_cache, Returned)].
Proof.
  intros Hin. apply (main_reports_well name args p).
  unfold reports. apply existsb_exists.
  eexists. split; [exact Hin | reflexivity].
Qed.

(** X11.  [main] does not check the mode: with any string other than
    "base" it loads the quantized model with the unsloth loader and the
    public dataset, and the name it saves under carries the string as
    given.  Each of the three calls is missing only from a run that an
    earlier action stopped by raising, and all three are made, and [main]
    returns, when no call raises. *)
Theorem any_other_mode_goes_unsloth name s p :
  s <> "base" ->
  let r := main w name {| model := PyStr s |} p in
  let unsloth_call :=
    (load_unsloth_model_and_tokenizer, "unsloth/Meta-Llama-3.1-8B-bnb-4bit") in
  let public_dataset := (by_load_and_prepare_unsloth_dataset, "yahma/alpaca-cleaned") in
  let new_model := ("stf-" ++ s ++ "-Llama-3-8B-Instruct")%string in
  (collect model_loaded (log r) = [unsloth_call] \/
   collect model_loaded (log r) = [] /\ stopped r) /\
  (collect dataset_loaded (log r) = [public_dataset] \/
   collect dataset_loaded (log r) = [] /\ stopped r) /\
  (collect saved_as (log r) = [new_model] \/
   collect saved_as (log r) = [] /\ stopped r) /\
  (obliging w ->
   collect model_loaded (log r) = [unsloth_call] /\
   collect dataset_loaded (log r) = [public_dataset] /\
   collect saved_as (log r) = [new_model] /\
   value r = Ok tt).
Proof.
  intros Hs r unsloth_call public_dataset new_model.
  subst r unsloth_call public_dataset new_model.
  pose proof (main_model_emitted w name {| model := PyStr s |}) as Hm.
  pose proof (main_dataset_emitted w name {| model := PyStr s |}) as Hd.
  pose proof (main_saved_emitted w name {| model := PyStr s |}) as Hn.
  pose proof (main_disciplined w name {| model := PyStr s |}) as Hdis.
  unfold model_for, dataset_for, is_base in Hm, Hd. simpl in Hm, Hd.
  apply String.eqb_neq in Hs. rewrite Hs in Hm, Hd.
  change (new_model_name (model {| model := PyStr s |}))
    with ("stf-" ++ s ++ "-Llama-3-8B-Instruct")%string in Hn.
  split; [|split; [|split]].
  - apply emits_or_stopped; assumption.
  - apply emits_or_stopped; assumption.
  - apply emits_or_stopped; assumption.
  - intros Hob.
    pose proof (main_completes w name {| model := PyStr s |} Hob) as Hc.
    split; [apply emits_when_completes; assumption|].
    split; [apply emits_when_completes; assumption|].
    split; [apply emits_when_completes; assumption|].
    destruct (Hc p) as [[] Hv]. exact Hv.
Qed.

(** X12.  Whatever the command line, a model trained by the script is
    saved under the name made from the mode of the command line, one of
    four names. *)
Theorem saved_name_follows_the_mode inv nm :
  name__ inv = "__main__" ->
  In nm (collect saved_as (log (run_script w inv))) ->
  nm = new_model_name (mode_of (argv inv)) /\
  In nm ["stf-base-Llama-3-8B-Instruct"; "stf-unsloth-Llama-3-8B-Instruct";
         "stf-None-Llama-3-8B-Instruct"; "stf-[]-Llama-3-8B-Instruct"].
Proof.
  intros Hname Hin.
  destruct (script_shown_in w saved_as inv nm
              (fun a Ha => ltac:(destruct a; try discriminate Ha; reflexivity))
              Hname Hin) as (args & Ep & Hnm).
  rewrite (Hnm _ (main_saved_emitted w _ args)).
  rewrite <- (parse_args_mode _ _ Ep).
  split; [reflexivity|].
  destruct (parse_args_mode_cases _ _ Ep) as [-> | [-> | [-> | ->]]]; simpl; tauto.
Qed.

End Ends.

Section Start.

Context {Obj : Type}.
Variable w : World Obj.





End Start.

(** ** The further theorems at work on the sample runs *)

Section MoreWitnesses.

Import Sample.

Ltac find_entry := vm_compute; repeat (first [left; reflexivity | right]).


Lemma pipeline_steps_witness :
  let a := train_and_save_model 114%nat "stf-base-Llama-3-8B-Instruct" true 100%nat in
  (shows dataset_loaded a = true ->
     existsb (returned_of (shows model_loaded)) (firstn 15 base_log) = true) /\
  (shows trainer_made a = true ->
     existsb (returned_of (shows dataset_loaded)) (firstn 15 base_log) = true) /\
  (is_train a = true ->
     existsb (returned_of (shows trainer_made)) (firstn 15 base_log) = true).
Proof.
  apply (pipeline_steps_in_order calm "__main__" base_args fresh
           (firstn 15 base_log) _ Returned (skipn 16 base_log)).
  vm_compute. reflexivity.
Defined.

Lemma logger_witness :
  returns_object calm fresh (CustomLogger "__main__" DEBUG) = Ok 100%nat.
Proof.
  apply (logger_is_the_one_made calm "__main__" base_args fresh
           (user_login 100%nat) Returned 100%nat).
  - find_entry.
  - reflexivity.
Defined.

Lemma trainer_built_witness :
  let a := create_SFT_trainer 1%nat 2%nat 112%nat 113%nat 3%nat true 100%nat 1%Z in
  (forall x, built_from a = Some x ->
     exists q logger,
       returns_triple calm q
         (load_func (fst (model_for (model base_args)))
            (snd (model_for (model base_args))) logger) = Ok x) /\
  (forall t, tokenizer_of a = Some t ->
     exists q logger m c,
       returns_triple calm q
         (load_func (fst (model_for (model base_args)))
            (snd (model_for (model base_args))) logger) = Ok (m, t, c)).
Proof.
  apply (trainer_built_from_what_was_loaded calm "__main__" base_args fresh _ Returned).
  find_entry.
Defined.

Lemma trainer_splits_witness :
  exists ds : nat,
    (exists q, returns_object calm q (getitem ds (KStr "train_demo")) = Ok 112%nat) /\
    (exists q, returns_object calm q (getitem ds (KStr "eval_demo")) = Ok 113%nat) /\
    (is_base (model base_args) = true /\
     (exists q tokenizer logger x,
        returns_pair calm q
          (load_and_process_dataset tokenizer "../data/train/mrd3_dataset.json"
             "sentence-transformers/all-mpnet-base-v2" "../chroma_db" logger)
        = Ok (ds, x)) \/
     is_base (model base_args) = false /\
     (exists q tokenizer logger,
        returns_object calm q
          (load_and_prepare_unsloth_dataset tokenizer "yahma/alpaca-cleaned" logger)
        = Ok ds)).
Proof.
  apply (trainer_given_the_splits_of_the_dataset calm "__main__" base_args fresh
           (create_SFT_trainer 1%nat 2%nat 112%nat 113%nat 3%nat true 100%nat 1%Z)
           Returned).
  - find_entry.
  - reflexivity.
Defined.

Lemma trained_trainer_witness :
  exists q c, is_factory c = true /\ returns_object calm q c = Ok 114%nat.
Proof.
  apply (trained_is_the_trainer_built calm "__main__" base_args fresh
           (train_and_save_model 114%nat "stf-base-Llama-3-8B-Instruct" true 100%nat)
           Returned).
  - find_entry.
  - reflexivity.
Defined.

Lemma report_witness :
  exists t n b lg,
    relevant base_log =
    [(train_and_save_model t n b lg, Returned); (del_trainer, Returned);
     (gc_collect, Returned); (cuda_empty_cache, Returned)].
Proof.
  apply (report_means_memory_was_released calm "__main__" base_args fresh
           100%nat Returned).
  find_entry.
Defined.

Lemma other_mode_witness :
  let r := main calm "__main__" {| model := PyStr "orpo" |} fresh in
  let unsloth_call :=
    (load_unsloth_model_and_tokenizer, "unsloth/Meta-Llama-3.1-8B-bnb-4bit") in
  let public_dataset := (by_load_and_prepare_unsloth_dataset, "yahma/alpaca-cleaned") in
  let new_model := ("stf-" ++ "orpo" ++ "-Llama-3-8B-Instruct")%string in
  (collect model_loaded (log r) = [unsloth_call] \/
   collect model_loaded (log r) = [] /\ stopped r) /\
  (collect dataset_loaded (log r) = [public_dataset] \/
   collect dataset_loaded (log r) = [] /\ stopped r) /\
  (collect saved_as (log r) = [new_model] \/
   collect saved_as (log r) = [] /\ stopped r) /\
  (obliging calm ->
   collect model_loaded (log r) = [unsloth_call] /\
   collect dataset_loaded (log r) = [public_dataset] /\
   collect saved_as (log r) = [new_model] /\
   value r = Ok tt).
Proof.
  apply (any_other_mode_goes_unsloth calm "__main__" "orpo" fresh).
  discriminate.
Defined.

Lemma saved_name_witness :
  "stf-base-Llama-3-8B-Instruct" = new_model_name (mode_of (argv base_from_home)) /\
  In "stf-base-Llama-3-8B-Instruct"
    ["stf-base-Llama-3-8B-Instruct"; "stf-unsloth-Llama-3-8B-Instruct";
     "stf-None-Llama-3-8B-Instruct"; "stf-[]-Llama-3-8B-Instruct"].
Proof.
  apply (saved_name_follows_the_mode calm base_from_home).
  - reflexivity.
  - find_entry.
Defined.



End MoreWitnesses.
